(** * n8n-nodes-astradb: the Astra DB node, version 1

    A shallow embedding of [nodes/AstraDb/v1/GenericFunctions.ts],
    [nodes/AstraDb/v1/utilities.ts] and [nodes/AstraDb/v1/AstraDbV1.node.ts],
    and the properties of the validators, the option parser, the response
    formatter, the sanitizer and the per-item dispatcher. *)

From Stdlib Require Import String Ascii List Bool Arith Lia PrimFloat ZArith Uint63.
Import ListNotations.
Local Open Scope list_scope.
Local Open Scope string_scope.

(** ** JavaScript values

    The data that flows through the node: JSON data, [undefined], and the one
    native function a property read of this program can meet
    ([Array.prototype.sort], read as [options.sort] from an array).  A number
    is an IEEE binary64 float, as in JavaScript.  An object is its list of own
    properties in insertion order.  A string is a sequence of 8-bit code
    units (Latin-1). *)

Local Set Warnings "-register-all".

Inductive value : Type :=
| VUndefined
| VNull
| VBool (b : bool)
| VNum (n : float)
| VStr (s : string)
| VArr (elements : list value)
| VObj (properties : list (string * value))
| VNative (name : string).

Definition IDataObject := list (string * value).

(** [typeof v] *)
Definition typeof (v : value) : string :=
  match v with
  | VUndefined => "undefined"
  | VNull => "object"
  | VBool _ => "boolean"
  | VNum _ => "number"
  | VStr _ => "string"
  | VArr _ => "object"
  | VObj _ => "object"
  | VNative _ => "function"
  end.

(** [Array.isArray(v)] *)
Definition Array_isArray (v : value) : bool :=
  match v with VArr _ => true | _ => false end.

(** ToBoolean: the truthiness used by [!x], [x || y], [if (x)], [Boolean(x)]. *)
Definition ToBoolean (v : value) : bool :=
  match v with
  | VUndefined | VNull => false
  | VBool b => b
  | VNum n => negb (PrimFloat.is_nan n || PrimFloat.is_zero n)
  | VStr s => negb (String.eqb s "")
  | VArr _ | VObj _ | VNative _ => true
  end.

(** [a || b] *)
Definition js_or (a b : value) : value := if ToBoolean a then a else b.

(** The number of a loop index or a length (exact below 2^53). *)
Definition number_of_nat (n : nat) : float :=
  PrimFloat.of_uint63 (Uint63.of_Z (Z.of_nat n)).

(** Own properties, in insertion order. *)
Fixpoint lookup (k : string) (o : IDataObject) : option value :=
  match o with
  | [] => None
  | (k', v) :: rest => if String.eqb k k' then Some v else lookup k rest
  end.

(** [o[k] = v] on an object: an existing property keeps its place. *)
Fixpoint set_prop (k : string) (v : value) (o : IDataObject) : IDataObject :=
  match o with
  | [] => [(k, v)]
  | (k', v') :: rest =>
      if String.eqb k k' then (k', v) :: rest else (k', v') :: set_prop k v rest
  end.

(** ** Exceptions

    An error carries the message text that the code gave to its
    constructor.  (The [NodeOperationError] of [n8n-workflow] shows a
    descriptive text instead when the given one contains the name of a
    common system error, such as [ECONNREFUSED] or [ENOENT]; the texts of
    this development are the given ones.) *)

Record INode : Type := mkNode
  { node_name : string; node_type : string; typeVersion : nat }.

Inductive exn : Type :=
| Error (message : string)
| TypeError (message : string)
| SyntaxError (message : string)
| NodeOperationError (node : INode) (message : string).

(** [error.message] *)
Definition message (e : exn) : string :=
  match e with
  | Error m | TypeError m | SyntaxError m | NodeOperationError _ m => m
  end.

(** A computation that returns or throws. *)
Definition completion (A : Type) : Type := (exn + A)%type.

Definition ok {A} (a : A) : completion A := inr a.
Definition throw {A} (e : exn) : completion A := inl e.

Definition rbind {A B} (r : completion A) (k : A -> completion B) : completion B :=
  match r with
  | inl e => inl e
  | inr a => k a
  end.

Declare Scope completion_scope.
Delimit Scope completion_scope with comp.
Notation "x <- r ;; k" := (rbind r (fun x => k))
  (at level 61, r at next level, right associativity) : completion_scope.
Notation "r ;;; k" := (rbind r (fun _ => k))
  (at level 61, right associativity) : completion_scope.

(** [v.k] for the property names this program reads: [insertedId],
    [insertedIds], [insertedCount], [acknowledged], [matchedCount],
    [modifiedCount], [deletedCount], [documents], [endpoint], [token],
    [limit], [skip], [sort], [projection], [upsert], [returnDocument].
    Reading from [null] or [undefined] throws; of these names only [sort] is
    inherited from a prototype (of arrays); a primitive has none of them. *)
Definition get_prop (v : value) (k : string) : completion value :=
  match v with
  | VUndefined =>
      throw (TypeError ("Cannot read properties of undefined (reading '" ++ k ++ "')"))
  | VNull =>
      throw (TypeError ("Cannot read properties of null (reading '" ++ k ++ "')"))
  | VObj o => ok (match lookup k o with Some x => x | None => VUndefined end)
  | VArr _ => ok (if String.eqb k "sort" then VNative "sort" else VUndefined)
  | VBool _ | VNum _ | VStr _ | VNative _ => ok VUndefined
  end.

(** ** The language runtime

    [JSON.parse], the conversion of a string to a number and of a number to
    a string are the engine's; the node's code is verified for any engine. *)

Class Platform : Type := mkPlatform
  { JSON_parse : string -> completion value;
    StringToNumber : string -> float;
    NumberToString : float -> string }.

Definition is_undefined (v : value) : bool :=
  match v with VUndefined => true | _ => false end.

Definition is_nullish (v : value) : bool :=
  match v with VUndefined | VNull => true | _ => false end.

(** Code units that [String.prototype.trim] removes (those below 256). *)
Definition is_white_space (c : ascii) : bool :=
  let n := nat_of_ascii c in
  (((9 <=? n) && (n <=? 13)) || (n =? 32) || (n =? 160))%nat.

Fixpoint trim_start (s : list ascii) : list ascii :=
  match s with
  | [] => []
  | c :: rest => if is_white_space c then trim_start rest else s
  end.

(** [s.trim()] *)
Definition trim (s : string) : string :=
  string_of_list_ascii
    (rev (trim_start (rev (trim_start (list_ascii_of_string s))))).

Definition is_letter (c : ascii) : bool :=
  let n := nat_of_ascii c in
  (((65 <=? n) && (n <=? 90)) || ((97 <=? n) && (n <=? 122)))%nat.

Definition is_digit (c : ascii) : bool :=
  let n := nat_of_ascii c in ((48 <=? n) && (n <=? 57))%nat.

(** The class [[a-zA-Z0-9_]]. *)
Definition is_word_char (c : ascii) : bool :=
  is_letter c || is_digit c || (nat_of_ascii c =? 95)%nat.

(** [/^[a-zA-Z][a-zA-Z0-9_]*$/.test(s)] *)
Definition identifier_regex_test (s : string) : bool :=
  match list_ascii_of_string s with
  | [] => false
  | c :: rest => is_letter c && forallb is_word_char rest
  end.

Section Conversions.
Context {P : Platform}.

(** ToString: template literals, [Array.prototype.join], the argument of
    [JSON.parse].  An object goes through ToPrimitive: without an own
    [toString] it is ["[object Object]"]; with one, which in this value
    domain is never a function that returns a primitive, the conversion
    throws. *)
Fixpoint ToString (v : value) : completion string :=
  match v with
  | VUndefined => ok "undefined"
  | VNull => ok "null"
  | VBool b => ok (if b then "true" else "false")
  | VNum n => ok (NumberToString n)
  | VStr s => ok s
  | VArr l =>
      (fix join (l : list value) : completion string :=
         match l with
         | [] => ok ""
         | x :: rest =>
             match (match x with
                    | VUndefined | VNull => ok ""
                    | _ => ToString x
                    end) with
             | inl e => inl e
             | inr head =>
                 match rest with
                 | [] => ok head
                 | _ :: _ =>
                     match join rest with
                     | inl e => inl e
                     | inr tail => ok (head ++ "," ++ tail)
                     end
                 end
             end
         end) l
  | VObj o =>
      match lookup "toString" o with
      | Some _ => throw (TypeError "Cannot convert object to primitive value")
      | None => ok "[object Object]"
      end
  | VNative name => ok ("function " ++ name ++ "() { [native code] }")
  end.

(** [Number(v)]; an object or an array converts through its text. *)
Definition Number (v : value) : completion float :=
  match v with
  | VUndefined => ok PrimFloat.nan
  | VNull => ok PrimFloat.zero
  | VBool b => ok (if b then PrimFloat.one else PrimFloat.zero)
  | VNum n => ok n
  | VStr s => ok (StringToNumber s)
  | VArr _ | VObj _ | VNative _ =>
      match ToString v with
      | inl e => inl e
      | inr text => ok (StringToNumber text)
      end
  end.
End Conversions.

(** [array.push(x)] *)
Definition Array_push {A : Type} (array : list A) (x : A) : list A :=
  (array ++ [x])%list.

(** The string held by a value whose [typeof] is ["string"]. *)
Definition str (v : value) : string :=
  match v with VStr s => s | _ => "" end.

(** ** [nodes/AstraDb/v1/utilities.ts] *)

(** [Array.from({ length }, (_, index) => ({ item: index, input: inputIndex }))] *)
Definition generatePairedItemData (length : nat) (inputIndex : float) : list value :=
  map (fun index =>
         VObj [("item", VNum (number_of_nat index)); ("input", VNum inputIndex)])
      (seq 0 length).

(** [{ item: i, input: 0 }], the element [i] of
    [generatePairedItemData(length, 0)] when [i < length]. *)
Definition link (i : nat) : value :=
  VObj [("item", VNum (number_of_nat i)); ("input", VNum PrimFloat.zero)].

(** ** [nodes/AstraDb/v1/GenericFunctions.ts]: the synchronous functions *)

Record IAstraDbCredentials : Type := mkCredentials
  { endpoint : string; token : string }.

Definition validateAstraCredentialsRaw (credentials : value)
  : completion IAstraDbCredentials :=
  (endpoint_v <- get_prop credentials "endpoint" ;;
   if negb (ToBoolean endpoint_v) || negb (String.eqb (typeof endpoint_v) "string")
   then throw (Error "Astra DB endpoint is required")
   else
     token_v <- get_prop credentials "token" ;;
     if negb (ToBoolean token_v) || negb (String.eqb (typeof token_v) "string")
     then throw (Error "Astra DB token is required")
     else ok {| endpoint := trim (str endpoint_v); token := trim (str token_v) |})%comp.

Definition validateAstraCredentials (node : INode) (credentials : value)
  : completion IAstraDbCredentials :=
  match validateAstraCredentialsRaw credentials with
  | inr c => ok c
  | inl err => throw (NodeOperationError node (message err))
  end.

(** [type] is ['keyspace'] or ['collection']. *)
Definition validateKeyspaceCollectionName (node : INode) (name : value) (type : string)
  : completion unit :=
  if negb (ToBoolean name) || negb (String.eqb (typeof name) "string")
  then throw (NodeOperationError node ("Astra DB " ++ type ++ " name is required"))
  else
    let trimmedName := trim (str name) in
    if String.eqb trimmedName ""
    then throw (NodeOperationError node ("Astra DB " ++ type ++ " name cannot be empty"))
    else
      if negb (identifier_regex_test trimmedName)
      then throw (NodeOperationError node
                    ("Invalid " ++ type ++ " name. Must start with a letter and contain only letters, numbers, and underscores"))
      else ok tt.

Record QueryValidation : Type := mkValidation
  { isValid : bool; errors : list string }.

Definition validateQuery (node : INode) (query : value) (fieldName : string)
  : QueryValidation :=
  let errors : list string := [] in
  if is_nullish query
  then {| isValid := false;
          errors := Array_push errors (fieldName ++ " cannot be null or undefined") |}
  else
    if negb (String.eqb (typeof query) "object")
    then {| isValid := false;
            errors := Array_push errors (fieldName ++ " must be an object") |}
    else
      if Array_isArray query
      then {| isValid := false;
              errors := Array_push errors (fieldName ++ " cannot be an array") |}
      else {| isValid := true; errors := errors |}.

Section OptionParser.
Context {P : Platform}.

(** The body of [try { result.f = typeof x === 'string' ? JSON.parse(x) : x }
    catch { throw new NodeOperationError(node, msg) }]. *)
Definition parse_json_option (node : INode) (x : value) (msg : string)
  : completion value :=
  if String.eqb (typeof x) "string"
  then match JSON_parse (str x) with
       | inr parsed => ok parsed
       | inl _ => throw (NodeOperationError node msg)
       end
  else ok x.

Definition parseAstraOptions (node : INode) (options : value) : completion value :=
  (let result : IDataObject := [] in
   limit_v <- get_prop options "limit" ;;
   result <-
     (if negb (is_undefined limit_v)
      then
        limit <- Number limit_v ;;
        if PrimFloat.is_nan limit || PrimFloat.ltb limit PrimFloat.zero
        then throw (NodeOperationError node "Limit must be a non-negative number")
        else ok (set_prop "limit" (VNum limit) result)
      else ok result) ;;
   skip_v <- get_prop options "skip" ;;
   result <-
     (if negb (is_undefined skip_v)
      then
        skip <- Number skip_v ;;
        if PrimFloat.is_nan skip || PrimFloat.ltb skip PrimFloat.zero
        then throw (NodeOperationError node "Skip must be a non-negative number")
        else ok (set_prop "skip" (VNum skip) result)
      else ok result) ;;
   sort_v <- get_prop options "sort" ;;
   result <-
     (if ToBoolean sort_v
      then
        sort <- parse_json_option node sort_v "Invalid sort format. Must be valid JSON" ;;
        ok (set_prop "sort" sort result)
      else ok result) ;;
   projection_v <- get_prop options "projection" ;;
   result <-
     (if ToBoolean projection_v
      then
        projection <- parse_json_option node projection_v
                        "Invalid projection format. Must be valid JSON" ;;
        ok (set_prop "projection" projection result)
      else ok result) ;;
   upsert_v <- get_prop options "upsert" ;;
   let result :=
     if negb (is_undefined upsert_v)
     then set_prop "upsert" (VBool (ToBoolean upsert_v)) result
     else result in
   returnDocument_v <- get_prop options "returnDocument" ;;
   let result :=
     if ToBoolean returnDocument_v
     then set_prop "returnDocument" returnDocument_v result
     else result in
   ok (VObj result))%comp.
End OptionParser.

(** [response.k = result.k] *)
Definition copy_field (result : value) (k : string) (response : IDataObject)
  : completion IDataObject :=
  (x <- get_prop result k ;; ok (set_prop k x response))%comp.

Definition formatAstraResponse (result : value) (operation : string) : completion value :=
  (let response : IDataObject :=
     [("operation", VStr operation); ("success", VBool true); ("data", result)] in
   response <-
     (if String.eqb operation "insertOne" then
        response <- copy_field result "insertedId" response ;;
        copy_field result "acknowledged" response
      else if String.eqb operation "insertMany" then
        response <- copy_field result "insertedIds" response ;;
        response <- copy_field result "insertedCount" response ;;
        copy_field result "acknowledged" response
      else if String.eqb operation "updateMany" then
        response <- copy_field result "matchedCount" response ;;
        response <- copy_field result "modifiedCount" response ;;
        copy_field result "acknowledged" response
      else if String.eqb operation "delete" then
        response <- copy_field result "deletedCount" response ;;
        copy_field result "acknowledged" response
      else if String.eqb operation "findMany" then
        ok (set_prop "data" result response)
      else if String.eqb operation "findOne" then
        ok (set_prop "document" result response)
      else if String.eqb operation "findAndUpdate"
              || String.eqb operation "findAndReplace"
              || String.eqb operation "findAndDelete" then
        ok (set_prop "document" result response)
      else if String.eqb operation "estimatedDocumentCount" then
        ok (set_prop "count" result response)
      else ok response) ;;
   ok (VObj response))%comp.

Definition sanitizeInput (data : value) : value :=
  if is_nullish data then VObj []
  else if String.eqb (typeof data) "object" && negb (Array_isArray data) then data
  else VObj [("data", data)].

(** ** The database client

    The methods of a collection handle of [@datastax/astra-db-ts] that the
    node calls. *)

Inductive Method : Type :=
| collection_insertOne
| collection_insertMany
| collection_find
| collection_findOne
| collection_updateMany
| collection_deleteMany
| collection_findOneAndUpdate
| collection_findOneAndReplace
| collection_findOneAndDelete
| collection_estimatedDocumentCount.

(** The SDK is a black box: handles are created without input or output, a
    method call on a collection reads and changes the remote [Store] and
    returns or throws. *)
Class AstraSdk : Type := mkSdk
  { DataAPIClient : Type;
    Db : Type;
    Collection : Type;
    Store : Type;
    new_DataAPIClient : string -> completion DataAPIClient;
    client_db : DataAPIClient -> string -> value -> completion Db;
    db_collection : Db -> value -> completion Collection;
    invoke : Collection -> Method -> list value -> Store -> completion value * Store }.

(** ** The host runtime: [this] of [execute] *)

Record INodeExecutionData : Type := mkItem
  { json : value; pairedItem : value }.

Record IExecuteFunctions : Type := mkExecuteFunctions
  { getNode : INode;
    getInputData : list INodeExecutionData;
    (** [getNodeParameter(name, itemIndex, fallback?)] *)
    getNodeParameter : string -> nat -> option value -> completion value;
    getCredentials : string -> completion value;
    continueOnFail : bool }.

Section Node.
Context {P : Platform} {sdk : AstraSdk}.

(** What a run can touch outside the node: the remote store, and the
    method calls sent to the client so far. *)
Record World : Type := mkWorld
  { store : Store; requests : list (Method * list value) }.

(** The state of [execute]: the world and its local [returnData]. *)
Record State : Type := mkState
  { world : World; returnData : list INodeExecutionData }.

(** A statement: it runs in a state, and returns or throws in a state. *)
Definition M (A : Type) : Type := State -> completion A * State.

Definition ret {A} (a : A) : M A := fun st => (inr a, st).

Definition fail {A} (e : exn) : M A := fun st => (inl e, st).

Definition bind {A B} (m : M A) (k : A -> M B) : M B :=
  fun st =>
    match m st with
    | (inr a, st') => k a st'
    | (inl e, st') => (inl e, st')
    end.

(** A synchronous call. *)
Definition lift {A} (r : completion A) : M A := fun st => (r, st).

(** [try { body } catch (error) { handler }] *)
Definition try_catch {A} (body : M A) (handler : exn -> M A) : M A :=
  fun st =>
    match body st with
    | (inr a, st') => (inr a, st')
    | (inl error, st') => handler error st'
    end.

(** [await collection.method(...args)] *)
Definition call (collection : Collection) (method : Method) (args : list value)
  : M value :=
  fun st =>
    let w := world st in
    let (r, store') := invoke collection method args (store w) in
    (r, {| world := {| store := store';
                       requests := Array_push (requests w) (method, args) |};
           returnData := returnData st |}).

(** [returnData.push(item)] *)
Definition push (item : INodeExecutionData) : M unit :=
  fun st =>
    (inr tt, {| world := world st; returnData := Array_push (returnData st) item |}).

(** [for (const x of xs) { body }] *)
Fixpoint for_of {A} (xs : list A) (body : A -> M unit) : M unit :=
  match xs with
  | [] => ret tt
  | x :: rest => bind (body x) (fun _ => for_of rest body)
  end.
End Node.

Declare Scope M_scope.
Delimit Scope M_scope with M.
Notation "x <- m ;; k" := (bind m (fun x => k))
  (at level 61, m at next level, right associativity) : M_scope.
Notation "m ;;; k" := (bind m (fun _ => k))
  (at level 61, right associativity) : M_scope.

(** ** [GenericFunctions.ts]: the asynchronous functions *)

Section Client.
Context {P : Platform} {sdk : AstraSdk}.

Definition connectAstraClient (credentials : IAstraDbCredentials)
  : completion DataAPIClient :=
  match new_DataAPIClient (token credentials) with
  | inr client => ok client
  | inl error => throw (Error ("Failed to connect to Astra DB: " ++ message error))
  end.

(** [try { const result = await collection.method(...); return
    formatAstraResponse(result, operation) } catch (error) { throw new
    NodeOperationError(node, `${failure}: ${error.message}`) }] *)
Definition call_and_format (node : INode) (collection : Collection)
    (method : Method) (args : list value) (operation failure : string) : M value :=
  try_catch
    (result <- call collection method args ;;
     lift (formatAstraResponse result operation))%M
    (fun error => fail (NodeOperationError node (failure ++ ": " ++ message error))).

(** A parameter declared [options: IAstraOptions = {}]. *)
Definition or_empty (options : value) : value :=
  if is_undefined options then VObj [] else options.

Definition insertOneDocument (node : INode) (collection : Collection)
    (document : value) : M value :=
  call_and_format node collection collection_insertOne [document]
    "insertOne" "Failed to insert document".

Definition insertManyDocuments (node : INode) (collection : Collection)
    (documents options : value) : M value :=
  call_and_format node collection collection_insertMany [documents; or_empty options]
    "insertMany" "Failed to insert documents".

Definition updateDocuments (node : INode) (collection : Collection)
    (filter update options : value) : M value :=
  call_and_format node collection collection_updateMany [filter; update; or_empty options]
    "updateMany" "Failed to update documents".

Definition deleteDocuments (node : INode) (collection : Collection)
    (filter : value) : M value :=
  call_and_format node collection collection_deleteMany [filter]
    "delete" "Failed to delete documents".

Definition findDocuments (node : INode) (collection : Collection)
    (filter options : value) : M value :=
  call_and_format node collection collection_find [filter; or_empty options]
    "findMany" "Failed to find documents".

Definition findOneDocument (node : INode) (collection : Collection)
    (filter options : value) : M value :=
  call_and_format node collection collection_findOne [filter; or_empty options]
    "findOne" "Failed to find document".

Definition findAndUpdateDocument (node : INode) (collection : Collection)
    (filter update options : value) : M value :=
  call_and_format node collection collection_findOneAndUpdate
    [filter; update; or_empty options]
    "findAndUpdate" "Failed to find and update document".

Definition findAndReplaceDocument (node : INode) (collection : Collection)
    (filter replacement options : value) : M value :=
  call_and_format node collection collection_findOneAndReplace
    [filter; replacement; or_empty options]
    "findAndReplace" "Failed to find and replace document".

Definition findAndDeleteDocument (node : INode) (collection : Collection)
    (filter options : value) : M value :=
  call_and_format node collection collection_findOneAndDelete [filter; or_empty options]
    "findAndDelete" "Failed to find and delete document".

Definition estimatedDocumentCount (node : INode) (collection : Collection)
    (options : value) : M value :=
  call_and_format node collection collection_estimatedDocumentCount [or_empty options]
    "estimatedDocumentCount" "Failed to get document count".
End Client.

(** ** [nodes/AstraDb/v1/AstraDbV1.node.ts] *)

Section AstraDbV1.
Context {P : Platform} {sdk : AstraSdk}.

(** [JSON.parse(executeFunctions.getNodeParameter(name, itemIndex) as string)] *)
Definition parse_parameter (executeFunctions : IExecuteFunctions) (name : string)
    (itemIndex : nat) : completion value :=
  (raw <- getNodeParameter executeFunctions name itemIndex None ;;
   text <- ToString raw ;;
   JSON_parse text)%comp.

(** [parseAstraOptions(executeFunctions.getNode(),
    executeFunctions.getNodeParameter('options', itemIndex, {}))] *)
Definition parse_options (executeFunctions : IExecuteFunctions) (itemIndex : nat)
  : completion value :=
  (raw <- getNodeParameter executeFunctions "options" itemIndex (Some (VObj [])) ;;
   parseAstraOptions (getNode executeFunctions) raw)%comp.

(** [Array.prototype.join] on the error list: [errors.join(', ')]. *)
Fixpoint join (separator : string) (parts : list string) : string :=
  match parts with
  | [] => ""
  | [x] => x
  | x :: rest => x ++ separator ++ join separator rest
  end.

(** [const validation = validateQuery(node, query, fieldName);
    if (!validation.isValid) throw new NodeOperationError(node,
    `Invalid ${fieldName}: ${validation.errors.join(', ')}`)] *)
Definition require_valid (node : INode) (query : value) (fieldName : string)
  : completion unit :=
  let validation := validateQuery node query fieldName in
  if negb (isValid validation)
  then throw (NodeOperationError node
                ("Invalid " ++ fieldName ++ ": " ++ join ", " (errors validation)))
  else ok tt.

Definition handleInsertOne (executeFunctions : IExecuteFunctions)
    (collectionObj : Collection) (itemIndex : nat) : M value :=
  (document <- lift (parse_parameter executeFunctions "document" itemIndex) ;;
   insertOneDocument (getNode executeFunctions) collectionObj document)%M.

Definition handleInsertMany (executeFunctions : IExecuteFunctions)
    (collectionObj : Collection) (itemIndex : nat) : M value :=
  (documents <- lift (parse_parameter executeFunctions "documents" itemIndex) ;;
   options <- lift (parse_options executeFunctions itemIndex) ;;
   insertManyDocuments (getNode executeFunctions) collectionObj documents options)%M.

Definition handleFindMany (executeFunctions : IExecuteFunctions)
    (collectionObj : Collection) (itemIndex : nat) : M value :=
  (filter <- lift (parse_parameter executeFunctions "filter" itemIndex) ;;
   options <- lift (parse_options executeFunctions itemIndex) ;;
   lift (require_valid (getNode executeFunctions) filter "filter") ;;;
   findDocuments (getNode executeFunctions) collectionObj filter options)%M.

Definition handleFindOne (executeFunctions : IExecuteFunctions)
    (collectionObj : Collection) (itemIndex : nat) : M value :=
  (filter <- lift (parse_parameter executeFunctions "filter" itemIndex) ;;
   options <- lift (parse_options executeFunctions itemIndex) ;;
   lift (require_valid (getNode executeFunctions) filter "filter") ;;;
   result <- findOneDocument (getNode executeFunctions) collectionObj filter options ;;
   ret (js_or result (VObj [])))%M.

Definition handleUpdateMany (executeFunctions : IExecuteFunctions)
    (collectionObj : Collection) (itemIndex : nat) : M value :=
  (filter <- lift (parse_parameter executeFunctions "filter" itemIndex) ;;
   update <- lift (parse_parameter executeFunctions "update" itemIndex) ;;
   options <- lift (parse_options executeFunctions itemIndex) ;;
   lift (require_valid (getNode executeFunctions) filter "filter") ;;;
   lift (require_valid (getNode executeFunctions) update "update") ;;;
   updateDocuments (getNode executeFunctions) collectionObj filter update options)%M.

Definition handleDelete (executeFunctions : IExecuteFunctions)
    (collectionObj : Collection) (itemIndex : nat) : M value :=
  (filter <- lift (parse_parameter executeFunctions "filter" itemIndex) ;;
   lift (require_valid (getNode executeFunctions) filter "filter") ;;;
   deleteDocuments (getNode executeFunctions) collectionObj filter)%M.

Definition handleFindAndUpdate (executeFunctions : IExecuteFunctions)
    (collectionObj : Collection) (itemIndex : nat) : M value :=
  (filter <- lift (parse_parameter executeFunctions "filter" itemIndex) ;;
   update <- lift (parse_parameter executeFunctions "update" itemIndex) ;;
   options <- lift (parse_options executeFunctions itemIndex) ;;
   lift (require_valid (getNode executeFunctions) filter "filter") ;;;
   lift (require_valid (getNode executeFunctions) update "update") ;;;
   findAndUpdateDocument (getNode executeFunctions) collectionObj filter update options)%M.

Definition handleFindAndReplace (executeFunctions : IExecuteFunctions)
    (collectionObj : Collection) (itemIndex : nat) : M value :=
  (filter <- lift (parse_parameter executeFunctions "filter" itemIndex) ;;
   replacement <- lift (parse_parameter executeFunctions "replacement" itemIndex) ;;
   options <- lift (parse_options executeFunctions itemIndex) ;;
   lift (require_valid (getNode executeFunctions) filter "filter") ;;;
   lift (require_valid (getNode executeFunctions) replacement "replacement") ;;;
   findAndReplaceDocument (getNode executeFunctions) collectionObj filter replacement
     options)%M.

Definition handleFindAndDelete (executeFunctions : IExecuteFunctions)
    (collectionObj : Collection) (itemIndex : nat) : M value :=
  (filter <- lift (parse_parameter executeFunctions "filter" itemIndex) ;;
   options <- lift (parse_options executeFunctions itemIndex) ;;
   lift (require_valid (getNode executeFunctions) filter "filter") ;;;
   findAndDeleteDocument (getNode executeFunctions) collectionObj filter options)%M.

Definition handleEstimatedDocumentCount (executeFunctions : IExecuteFunctions)
    (collectionObj : Collection) (itemIndex : nat) : M value :=
  (options <- lift (parse_options executeFunctions itemIndex) ;;
   estimatedDocumentCount (getNode executeFunctions) collectionObj options)%M.

(** [operation === name], for a string literal [name]. *)
Definition is_operation (operation : value) (name : string) : bool :=
  match operation with
  | VStr s => String.eqb s name
  | _ => false
  end.

(** The [switch (operation)] of [execute]. *)
Definition run_operation (this : IExecuteFunctions) (collectionObj : Collection)
    (operation : value) (i : nat) : M value :=
  if is_operation operation "insertOne" then handleInsertOne this collectionObj i
  else if is_operation operation "insertMany" then handleInsertMany this collectionObj i
  else if is_operation operation "findMany" then handleFindMany this collectionObj i
  else if is_operation operation "findOne" then handleFindOne this collectionObj i
  else if is_operation operation "updateMany" then handleUpdateMany this collectionObj i
  else if is_operation operation "delete" then handleDelete this collectionObj i
  else if is_operation operation "findAndUpdate" then
    handleFindAndUpdate this collectionObj i
  else if is_operation operation "findAndReplace" then
    handleFindAndReplace this collectionObj i
  else if is_operation operation "findAndDelete" then
    handleFindAndDelete this collectionObj i
  else if is_operation operation "estimatedDocumentCount" then
    handleEstimatedDocumentCount this collectionObj i
  else
    match ToString operation with
    | inr text => fail (NodeOperationError (getNode this) ("Unknown operation: " ++ text))
    | inl error => fail error
    end.

(** [fallbackPairedItems[i]] *)
Definition item_link (fallbackPairedItems : list value) (i : nat) : value :=
  nth i fallbackPairedItems VUndefined.

(** The body of the inner [try] of [execute], for item [i]. *)
Definition process_item (this : IExecuteFunctions) (collectionObj : Collection)
    (fallbackPairedItems : list value) (operation : value) (i : nat) : M unit :=
  (result <- run_operation this collectionObj operation i ;;
   if is_operation operation "findMany" then
     listed <- lift (get_prop result "documents") ;;
     let documents := js_or listed result in
     match documents with
     | VArr elements =>
         for_of elements (fun document =>
           push {| json := sanitizeInput document;
                   pairedItem := item_link fallbackPairedItems i |})
     | _ =>
         push {| json := sanitizeInput documents;
                 pairedItem := item_link fallbackPairedItems i |}
     end
   else
     formatted <- lift (formatAstraResponse result (str operation)) ;;
     push {| json := formatted; pairedItem := item_link fallbackPairedItems i |})%M.

(** [{ json: { error: error.message }, pairedItem }] *)
Definition error_item (error : exn) (link : value) : INodeExecutionData :=
  {| json := VObj [("error", VStr (message error))]; pairedItem := link |}.

(** One turn of the [for] loop: the inner [try] and its [catch]. *)
Definition iteration (this : IExecuteFunctions) (collectionObj : Collection)
    (fallbackPairedItems : list value) (operation : value) (i : nat) : M unit :=
  try_catch
    (process_item this collectionObj fallbackPairedItems operation i)
    (fun error =>
       if continueOnFail this
       then push (error_item error (item_link fallbackPairedItems i))
       else fail error).

(** [for (let i = start; i < itemsLength; i++)], with [remaining] turns to
    go: [remaining = itemsLength - start]. *)
Fixpoint for_items (this : IExecuteFunctions) (collectionObj : Collection)
    (fallbackPairedItems : list value) (operation : value)
    (remaining : nat) (i : nat) : M unit :=
  match remaining with
  | O => ret tt
  | S remaining' =>
      (iteration this collectionObj fallbackPairedItems operation i ;;;
       for_items this collectionObj fallbackPairedItems operation remaining' (S i))%M
  end.

(** The outer [try] of [execute], down to the loop. *)
Definition execute_try (this : IExecuteFunctions) (client : DataAPIClient)
    (validatedCredentials : IAstraDbCredentials) : M unit :=
  (let items := getInputData this in
   operation <- lift (getNodeParameter this "operation" 0 None) ;;
   collection <- lift (getNodeParameter this "collection" 0 None) ;;
   keyspace <- lift (getNodeParameter this "keyspace" 0 None) ;;
   lift (validateKeyspaceCollectionName (getNode this) keyspace "keyspace") ;;;
   lift (validateKeyspaceCollectionName (getNode this) collection "collection") ;;;
   db <- lift (client_db client (endpoint validatedCredentials)
                 (VObj [("keyspace", keyspace)])) ;;
   collectionObj <- lift (db_collection db collection) ;;
   let itemsLength := length items in
   let fallbackPairedItems := generatePairedItemData (length items) PrimFloat.zero in
   for_items this collectionObj fallbackPairedItems operation itemsLength 0)%M.

(** [execute], from its first statement to [return [returnData]]. *)
Definition execute_body (this : IExecuteFunctions)
  : M (list (list INodeExecutionData)) :=
  (credentials <- lift (getCredentials this "astraDbApi") ;;
   validatedCredentials <- lift (validateAstraCredentialsRaw credentials) ;;
   client <- lift (connectAstraClient validatedCredentials) ;;
   try_catch
     (execute_try this client validatedCredentials)
     (fun error =>
        if continueOnFail this
        then push (error_item error (VArr [VObj [("item", VNum PrimFloat.zero)]]))
        else fail error) ;;;
   (fun st => (inr [returnData st], st)))%M.

(** [AstraDbV1.execute]: [returnData] starts empty and is local. *)
Definition execute (this : IExecuteFunctions) (w : World)
  : completion (list (list INodeExecutionData)) * World :=
  let (r, st) := execute_body this {| world := w; returnData := [] |} in
  (r, world st).
End AstraDbV1.

(** ** [AstraDbV1.methods.credentialTest] *)

Record INodeCredentialTestResult : Type := mkTestResult
  { status : string; test_message : string }.

Section CredentialTest.
Context {sdk : AstraSdk}.

(** [astraDbCredentialTest(credential)], on [credential.data]: the [try]
    validates the credentials, builds the client and creates a db object;
    the [catch] turns whatever was thrown into an ['Error'] result. *)
Definition astraDbCredentialTest (credentials : value) : INodeCredentialTestResult :=
  match (validatedCredentials <- validateAstraCredentialsRaw credentials ;;
         client <- connectAstraClient validatedCredentials ;;
         client_db client (endpoint validatedCredentials) VUndefined)%comp with
  | inr _ => {| status := "OK"; test_message := "Connection successful!" |}
  | inl error => {| status := "Error"; test_message := message error |}
  end.
End CredentialTest.

(** ** What the handlers of [AstraDbV1] check before they call the client *)

(** The parameters a handler passes through [JSON.parse]. *)
Definition parsed_parameters (operation : string) : list string :=
  if String.eqb operation "insertOne" then ["document"]
  else if String.eqb operation "insertMany" then ["documents"]
  else if String.eqb operation "findMany" then ["filter"]
  else if String.eqb operation "findOne" then ["filter"]
  else if String.eqb operation "updateMany" then ["filter"; "update"]
  else if String.eqb operation "delete" then ["filter"]
  else if String.eqb operation "findAndUpdate" then ["filter"; "update"]
  else if String.eqb operation "findAndReplace" then ["filter"; "replacement"]
  else if String.eqb operation "findAndDelete" then ["filter"]
  else [].

(** The handlers that call [parseAstraOptions]. *)
Definition parses_options (operation : string) : bool :=
  String.eqb operation "insertMany" || String.eqb operation "findMany"
  || String.eqb operation "findOne" || String.eqb operation "updateMany"
  || String.eqb operation "findAndUpdate" || String.eqb operation "findAndReplace"
  || String.eqb operation "findAndDelete"
  || String.eqb operation "estimatedDocumentCount".

(** The parameters a handler passes through [validateQuery]. *)
Definition validated_parameters (operation : string) : list string :=
  if String.eqb operation "findMany" then ["filter"]
  else if String.eqb operation "findOne" then ["filter"]
  else if String.eqb operation "updateMany" then ["filter"; "update"]
  else if String.eqb operation "delete" then ["filter"]
  else if String.eqb operation "findAndUpdate" then ["filter"; "update"]
  else if String.eqb operation "findAndReplace" then ["filter"; "replacement"]
  else if String.eqb operation "findAndDelete" then ["filter"]
  else [].

Section LocalValidation.
Context {P : Platform}.

(** A local validation step of item [i] fails: a parameter of the
    operation does not parse as JSON, its options are rejected by
    [parseAstraOptions], or a parsed query is marked invalid by
    [validateQuery]. *)
Definition local_validation_fails (this : IExecuteFunctions) (operation : string)
    (i : nat) : Prop :=
  (exists name error,
      In name (parsed_parameters operation)
      /\ parse_parameter this name i = inl error)
  \/ (parses_options operation = true
      /\ exists error, parse_options this i = inl error)
  \/ (exists name query,
         In name (validated_parameters operation)
         /\ parse_parameter this name i = inr query
         /\ isValid (validateQuery (getNode this) query name) = false).
End LocalValidation.

Section Frames.
Context {sdk : AstraSdk}.

Definition with_returnData (st : State) (records : list INodeExecutionData)
  : State :=
  {| world := world st; returnData := records |}.

(** A statement that leaves [returnData] alone, and does the same
    whatever it holds. *)
Definition silent {A} (m : M A) : Prop :=
  forall st records,
    m (with_returnData st records)
    = (fst (m st), with_returnData (snd (m st)) records).

(** A statement that only pushes onto [returnData]: what it does, and what
    it pushes, does not depend on the records already there. *)
Definition appends {A} (m : M A) : Prop :=
  forall st,
    m st = (fst (m (with_returnData st [])),
            with_returnData (snd (m (with_returnData st [])))
              (returnData st ++ returnData (snd (m (with_returnData st []))))%list).
End Frames.

(** What [findOneDocument] returns when the client's [findOne] returned
    [document] ([null] when nothing matches). *)
Definition found (document : value) : value :=
  VObj [("operation", VStr "findOne"); ("success", VBool true);
        ("data", document); ("document", document)].

(** The body of the record that [execute] pushes for it. *)
Definition found_record (document : value) : value :=
  VObj [("operation", VStr "findOne"); ("success", VBool true);
        ("data", found document); ("document", found document)].

Section Prepared.
Context {sdk : AstraSdk}.

(** The statements of [execute] before its loop all return: the
    credentials are valid, the client is built, the three node parameters
    are read as [operation] and as valid names, and the handle
    [collectionObj] is obtained. *)
Definition prepared (this : IExecuteFunctions) (collectionObj : Collection)
    (operation : value) : Prop :=
  exists credentials validatedCredentials client collection keyspace db,
    getCredentials this "astraDbApi" = ok credentials
    /\ validateAstraCredentialsRaw credentials = ok validatedCredentials
    /\ connectAstraClient validatedCredentials = ok client
    /\ getNodeParameter this "operation" 0 None = ok operation
    /\ getNodeParameter this "collection" 0 None = ok collection
    /\ getNodeParameter this "keyspace" 0 None = ok keyspace
    /\ validateKeyspaceCollectionName (getNode this) keyspace "keyspace" = ok tt
    /\ validateKeyspaceCollectionName (getNode this) collection "collection" = ok tt
    /\ client_db client (endpoint validatedCredentials)
         (VObj [("keyspace", keyspace)]) = ok db
    /\ db_collection db collection = ok collectionObj.

(** On the stores in [no_match], the call [collectionObj.findOne(...args)]
    returns [null] and leaves the store in [no_match]. *)
Definition finds_nothing (collectionObj : Collection) (no_match : Store -> Prop)
    (args : list value) : Prop :=
  forall s,
    no_match s ->
    fst (invoke collectionObj collection_findOne args s) = ok VNull
    /\ no_match (snd (invoke collectionObj collection_findOne args s)).
End Prepared.

(** The operations whose formatting reads properties of the client's result. *)
Definition reads_result_fields (operation : string) : bool :=
  String.eqb operation "insertOne" || String.eqb operation "insertMany"
  || String.eqb operation "updateMany" || String.eqb operation "delete".

(** ** Tables read off the source, for the statements below *)

(** The text of a value that passes [!(!x || typeof x !== 'string')]: a
    string that is not empty. *)
Definition nonempty_string (v : value) : option string :=
  match v with
  | VStr s => if String.eqb s "" then None else Some s
  | _ => None
  end.

(** [o.k] on an object. *)
Definition field (o : IDataObject) (k : string) : value :=
  match lookup k o with Some x => x | None => VUndefined end.

(** [v.k] on a value that is not [null] or [undefined]. *)
Definition property (v : value) (k : string) : value :=
  match get_prop v k with inr x => x | inl _ => VUndefined end.

(** The properties that [parseAstraOptions] can set on its result. *)
Definition option_names : list string :=
  ["limit"; "skip"; "sort"; "projection"; "upsert"; "returnDocument"].

(** The properties that [formatAstraResponse] copies from the result. *)
Definition copied_fields (operation : string) : list string :=
  if String.eqb operation "insertOne" then ["insertedId"; "acknowledged"]
  else if String.eqb operation "insertMany"
       then ["insertedIds"; "insertedCount"; "acknowledged"]
  else if String.eqb operation "updateMany"
       then ["matchedCount"; "modifiedCount"; "acknowledged"]
  else if String.eqb operation "delete" then ["deletedCount"; "acknowledged"]
  else [].

(** The ten operation names of the [switch] of [execute]. *)
Definition operation_names : list string :=
  ["insertOne"; "insertMany"; "findMany"; "findOne"; "updateMany"; "delete";
   "findAndUpdate"; "findAndReplace"; "findAndDelete"; "estimatedDocumentCount"].

(** The method of the collection that the handler of an operation calls. *)
Definition client_method (operation : string) : option Method :=
  if String.eqb operation "insertOne" then Some collection_insertOne
  else if String.eqb operation "insertMany" then Some collection_insertMany
  else if String.eqb operation "findMany" then Some collection_find
  else if String.eqb operation "findOne" then Some collection_findOne
  else if String.eqb operation "updateMany" then Some collection_updateMany
  else if String.eqb operation "delete" then Some collection_deleteMany
  else if String.eqb operation "findAndUpdate" then Some collection_findOneAndUpdate
  else if String.eqb operation "findAndReplace" then Some collection_findOneAndReplace
  else if String.eqb operation "findAndDelete" then Some collection_findOneAndDelete
  else if String.eqb operation "estimatedDocumentCount"
       then Some collection_estimatedDocumentCount
  else None.

(** The arguments that the handler of an operation passes to the method of
    the collection, from its parsed parameters and its parsed options. *)
Definition call_arguments (operation : string) (parameter : string -> value)
    (options : value) : list value :=
  if String.eqb operation "insertOne" then [parameter "document"]
  else if String.eqb operation "insertMany" then [parameter "documents"; options]
  else if String.eqb operation "findMany" then [parameter "filter"; options]
  else if String.eqb operation "findOne" then [parameter "filter"; options]
  else if String.eqb operation "updateMany"
       then [parameter "filter"; parameter "update"; options]
  else if String.eqb operation "delete" then [parameter "filter"]
  else if String.eqb operation "findAndUpdate"
       then [parameter "filter"; parameter "update"; options]
  else if String.eqb operation "findAndReplace"
       then [parameter "filter"; parameter "replacement"; options]
  else if String.eqb operation "findAndDelete" then [parameter "filter"; options]
  else if String.eqb operation "estimatedDocumentCount" then [options]
  else [].

(** A number that passes [!(isNaN(n) || n < 0)]. *)
Definition non_negative (n : float) : bool :=
  negb (PrimFloat.is_nan n || PrimFloat.ltb n PrimFloat.zero).

Section NumberChecks.
Context {P : Platform}.

(** An option value that is given and whose number is [NaN] or negative. *)
Definition rejected_number (v : value) : Prop :=
  is_undefined v = false
  /\ exists n, Number v = inr n /\ non_negative n = false.

(** An option value that is absent, or whose number passes the test. *)
Definition accepted_number (v : value) : Prop :=
  is_undefined v = true
  \/ exists n, Number v = inr n /\ non_negative n = true.
End NumberChecks.

Section CallDiscipline.
Context {sdk : AstraSdk}.

(** What a run of a statement did to the world: nothing, with a failure,
    or one call of the method of the operation. *)
Definition one_call_at_most {A} (operation : value) (st : State)
    (out : completion A * State) : Prop :=
  (world (snd out) = world st /\ exists error, fst out = inl error)
  \/ (exists name method args store',
         operation = VStr name
         /\ client_method name = Some method
         /\ world (snd out)
            = {| store := store';
                 requests := Array_push (requests (world st)) (method, args) |}).

End CallDiscipline.

(** ** A concrete engine, client and host for the examples *)

(** An excerpt of the engine: [JSON.parse] on three texts, and the two
    number conversions on zero and one; the examples below use no other. *)
Definition excerpt_JSON_parse (text : string) : completion value :=
  if String.eqb text "{}" then ok (VObj [])
  else if String.eqb text "[]" then ok (VArr [])
  else if String.eqb text "null" then ok VNull
  else throw (SyntaxError ("Unexpected token in JSON: " ++ text)).

Definition excerpt_StringToNumber (text : string) : float :=
  if String.eqb text "" || String.eqb text "0" then PrimFloat.zero
  else if String.eqb text "1" then PrimFloat.one
  else PrimFloat.nan.

Definition excerpt_NumberToString (n : float) : string :=
  if PrimFloat.is_zero n then "0"
  else if PrimFloat.eqb n PrimFloat.one then "1"
  else "NaN".

Definition engine_excerpt : Platform :=
  {| JSON_parse := excerpt_JSON_parse;
     StringToNumber := excerpt_StringToNumber;
     NumberToString := excerpt_NumberToString |}.

(** A collection held in memory.  It answers the empty filter: [find]
    returns every document, [findOne] the first one or [null]. *)
Definition memory_invoke (collection : value) (method : Method) (args : list value)
    (documents : list value) : completion value * list value :=
  match method with
  | collection_find => (ok (VArr documents), documents)
  | collection_findOne =>
      (ok (match documents with d :: _ => d | [] => VNull end), documents)
  | collection_estimatedDocumentCount =>
      (ok (VNum (number_of_nat (length documents))), documents)
  | _ => (throw (Error "not available in memory"), documents)
  end.

Definition memory_sdk : AstraSdk :=
  {| DataAPIClient := string;
     Db := string * value;
     Collection := value;
     Store := list value;
     new_DataAPIClient := fun token => ok token;
     client_db := fun _ endpoint options => ok (endpoint, options);
     db_collection := fun _ name => ok name;
     invoke := memory_invoke |}.

Definition sample_node : INode :=
  {| node_name := "Astra DB"; node_type := "astraDb"; typeVersion := 1 |}.

(** A host with one input item per entry of [filters]; item [i] has the
    JSON text [filters[i]] as its [filter] parameter, and no options. *)
Definition sample_host (operation : string) (filters : list string) (continue : bool)
  : IExecuteFunctions :=
  {| getNode := sample_node;
     getInputData :=
       map (fun _ => {| json := VObj []; pairedItem := VUndefined |}) filters;
     getNodeParameter := fun name itemIndex fallback =>
       if String.eqb name "operation" then ok (VStr operation)
       else if String.eqb name "collection" then ok (VStr "users")
       else if String.eqb name "keyspace" then ok (VStr "default_keyspace")
       else
         match (if String.eqb name "filter"
                then option_map VStr (nth_error filters itemIndex)
                else fallback) with
         | Some v => ok v
         | None => throw (Error ("Could not get parameter " ++ name))
         end;
     getCredentials := fun _ =>
       ok (VObj [("endpoint", VStr "https://db.example.com");
                 ("token", VStr "AstraCS:token")]);
     continueOnFail := continue |}.

Definition memory_world (documents : list value)
  : World (sdk := memory_sdk) :=
  @mkWorld memory_sdk documents [].

Definition ada : value := VObj [("_id", VStr "1"); ("name", VStr "Ada")].
Definition bob : value := VObj [("_id", VStr "2"); ("name", VStr "Bob")].

(** The JSON text [{"name":"Zed"}], written with the code of the double
    quote. *)
Definition double_quote : string := String (ascii_of_nat 34) EmptyString.

Definition name_is_Zed : string :=
  "{" ++ double_quote ++ "name" ++ double_quote ++ ":"
  ++ double_quote ++ "Zed" ++ double_quote ++ "}".

(** The engine excerpt, with [JSON.parse] on that text as well. *)
Definition excerpt_JSON_parse_names (text : string) : completion value :=
  if String.eqb text name_is_Zed then ok (VObj [("name", VStr "Zed")])
  else excerpt_JSON_parse text.

Definition engine_excerpt_names : Platform :=
  {| JSON_parse := excerpt_JSON_parse_names;
     StringToNumber := excerpt_StringToNumber;
     NumberToString := excerpt_NumberToString |}.

(** A collection held in memory that answers filters of string
    equalities: a document matches when it has every property of the
    filter with the same text.  [find] returns the matching documents,
    [findOne] the first of them or [null]. *)
Definition same_text (a b : value) : bool :=
  match a, b with
  | VStr x, VStr y => String.eqb x y
  | _, _ => false
  end.

Definition matches (query document : value) : bool :=
  match query, document with
  | VObj conditions, VObj fields =>
      forallb (fun condition =>
                 same_text (field fields (fst condition)) (snd condition))
        conditions
  | _, _ => false
  end.

Definition matching_invoke (collection : value) (method : Method) (args : list value)
    (documents : list value) : completion value * list value :=
  let selected := List.filter (matches (nth 0 args VUndefined)) documents in
  match method with
  | collection_find => (ok (VArr selected), documents)
  | collection_findOne =>
      (ok (match selected with d :: _ => d | [] => VNull end), documents)
  | collection_estimatedDocumentCount =>
      (ok (VNum (number_of_nat (length documents))), documents)
  | _ => (throw (Error "not available in memory"), documents)
  end.

Definition matching_sdk : AstraSdk :=
  {| DataAPIClient := string;
     Db := string * value;
     Collection := value;
     Store := list value;
     new_DataAPIClient := fun token => ok token;
     client_db := fun _ endpoint options => ok (endpoint, options);
     db_collection := fun _ name => ok name;
     invoke := matching_invoke |}.

(** Three [findOne] items; the filter of item 1 is an array. *)
Definition three_filters : list string := ["{}"; "[]"; "{}"].

(** The state after item 0 of [three_filters], on a store holding [ada]. *)
Definition after_first_item : State (sdk := memory_sdk) :=
  {| world := @mkWorld memory_sdk [ada] [(collection_findOne, [VObj []; VObj []])];
     returnData := [ {| json := found_record ada; pairedItem := link 0 |} ] |}.

Definition filter_is_array : exn :=
  NodeOperationError sample_node "Invalid filter: filter cannot be an array".

(** A mocked client whose every method resolves to [undefined] and
    leaves the store alone. *)
Definition mock_sdk : AstraSdk :=
  {| DataAPIClient := string;
     Db := string * value;
     Collection := value;
     Store := list value;
     new_DataAPIClient := fun token => ok token;
     client_db := fun _ endpoint options => ok (endpoint, options);
     db_collection := fun _ name => ok name;
     invoke := fun _ _ _ documents => (ok VUndefined, documents) |}.

(** The host [this] with another [keyspace] parameter. *)
Definition with_keyspace (keyspace : value) (this : IExecuteFunctions)
  : IExecuteFunctions :=
  {| getNode := getNode this;
     getInputData := getInputData this;
     getNodeParameter := fun name itemIndex fallback =>
       if String.eqb name "keyspace" then ok keyspace
       else getNodeParameter this name itemIndex fallback;
     getCredentials := getCredentials this;
     continueOnFail := continueOnFail this |}.

(** The host [this] with other stored credentials. *)
Definition with_credentials (credentials : value) (this : IExecuteFunctions)
  : IExecuteFunctions :=
  {| getNode := getNode this;
     getInputData := getInputData this;
     getNodeParameter := getNodeParameter this;
     getCredentials := fun _ => ok credentials;
     continueOnFail := continueOnFail this |}.

(** * Properties *)

(** ** The response formatter *)

(** C7.  [formatAstraResponse({insertedId: "123", acknowledged: true},
    "insertOne")] returns the envelope with five properties: [operation],
    [success], [data] (the raw result), [insertedId] and [acknowledged]; it
    is not the four-property value the claim gives. *)
Theorem formatAstraResponse_insertOne_keeps_data :
  formatAstraResponse
    (VObj [("insertedId", VStr "123"); ("acknowledged", VBool true)]) "insertOne"
  = ok (VObj [("operation", VStr "insertOne");
              ("success", VBool true);
              ("data", VObj [("insertedId", VStr "123"); ("acknowledged", VBool true)]);
              ("insertedId", VStr "123");
              ("acknowledged", VBool true)])
  /\ formatAstraResponse
       (VObj [("insertedId", VStr "123"); ("acknowledged", VBool true)]) "insertOne"
     <> ok (VObj [("operation", VStr "insertOne");
                  ("success", VBool true);
                  ("insertedId", VStr "123");
                  ("acknowledged", VBool true)]).
Proof.
  split.
  - reflexivity.
  - cbv. intro H. discriminate H.
Qed.

(** C10, as stated, fails at [null] with operation ["insertOne"]: reading
    [result.insertedId] throws, and no envelope is returned. *)
Lemma formatAstraResponse_null_insertOne_throws :
  ~ (exists envelope,
        formatAstraResponse VNull "insertOne" = ok envelope
        /\ get_prop envelope "success" = ok (VBool true)
        /\ get_prop envelope "operation" = ok (VStr "insertOne")).
Proof.
  intros [envelope [H _]]. cbv in H. discriminate H.
Qed.

Ltac case_operation operation :=
  repeat match goal with
    | |- context [String.eqb operation ?name] =>
        destruct (String.eqb operation name)
    end.

(** C10, amended.  [formatAstraResponse] throws, a [TypeError], exactly
    when the result is [null] or [undefined] and the operation is one whose
    formatting reads the result's properties ([insertOne], [insertMany],
    [updateMany], [delete]); whenever it returns, for any result and any operation tag,
    the envelope's [operation] is the tag and its [success] is [true]. *)
Theorem formatAstraResponse_success_or_throw :
  forall (result : value) (operation : string),
    match formatAstraResponse result operation with
    | inr envelope =>
        (is_nullish result && reads_result_fields operation) = false
        /\ get_prop envelope "operation" = ok (VStr operation)
        /\ get_prop envelope "success" = ok (VBool true)
    | inl error =>
        (is_nullish result && reads_result_fields operation) = true
        /\ exists reason, error = TypeError reason
    end.
Proof.
  intros result operation.
  unfold formatAstraResponse, reads_result_fields, copy_field.
  case_operation operation; destruct result; cbn;
    repeat match goal with
      | |- context [String.eqb ?a ?b] => destruct (String.eqb a b)
      end;
    cbn; auto;
    (split; [reflexivity | eexists; reflexivity]).
Qed.

(** ** The option parser *)

(** C5.  [parseAstraOptions] accepts [{limit: 2000}] and
    [{sort: {name: 2}}] and returns them unchanged: its only test on
    [limit] is [isNaN(limit) || limit < 0], and a sort given as an object
    is stored without a look at its values, whatever they are. *)
Theorem parseAstraOptions_accepts_limit_2000_and_sort_2 :
  forall (P : Platform) (node : INode),
    parseAstraOptions node (VObj [("limit", VNum 2000%float)])
    = ok (VObj [("limit", VNum 2000%float)])
    /\ parseAstraOptions node (VObj [("sort", VObj [("name", VNum 2%float)])])
       = ok (VObj [("sort", VObj [("name", VNum 2%float)])])
    /\ forall directions,
         parseAstraOptions node (VObj [("sort", VObj directions)])
         = ok (VObj [("sort", VObj directions)]).
Proof.
  intros P node. repeat split; reflexivity.
Qed.

(** ** The query validator *)

(** C6.  [validateQuery] marks [{$where: 'malicious code'}] valid with no
    error, and returns [{isValid: true, errors: []}] for the empty filter:
    its result has no [warnings], and every object that is not an array is
    valid, whatever its keys. *)
Theorem validateQuery_accepts_where_and_warns_nothing :
  forall (node : INode),
    validateQuery node (VObj [("$where", VStr "malicious code")]) "query"
    = {| isValid := true; errors := [] |}
    /\ validateQuery node (VObj []) "filter" = {| isValid := true; errors := [] |}
    /\ forall properties fieldName,
         validateQuery node (VObj properties) fieldName
         = {| isValid := true; errors := [] |}.
Proof.
  intros node. repeat split; reflexivity.
Qed.

(** ** The identifier validator *)

(** A name passes exactly when its trimmed text matches
    [/^[a-zA-Z][a-zA-Z0-9_]*$/]; nothing else is tested. *)
Lemma validateKeyspaceCollectionName_passes_iff : forall node name type,
    validateKeyspaceCollectionName node (VStr name) type = ok tt
    <-> identifier_regex_test (trim name) = true.
Proof.
  intros node name type. unfold validateKeyspaceCollectionName. simpl.
  destruct (String.eqb_spec name "") as [-> | Hname]; simpl.
  - split; intros H; discriminate H.
  - destruct (String.eqb_spec (trim name) "") as [Htrim | Htrim].
    + rewrite Htrim. split; intros H; discriminate H.
    + destruct (identifier_regex_test (trim name)); simpl.
      * split; reflexivity.
      * split; intros H; discriminate H.
Qed.

(** C8.  [validateKeyspaceCollectionName] returns for the reserved word
    [system], as a keyspace and as a collection name: the function has no
    reserved-word test. *)
Theorem validateKeyspaceCollectionName_accepts_system :
  forall (node : INode),
    validateKeyspaceCollectionName node (VStr "system") "keyspace" = ok tt
    /\ validateKeyspaceCollectionName node (VStr "system") "collection" = ok tt.
Proof.
  intros node. split; reflexivity.
Qed.

(** ** The sanitizer *)

(** C9.  [sanitizeInput] returns an object as it is, angle brackets
    included, and wraps a string, unchanged, as [{data: string}]: no
    character is ever removed, at any depth. *)
Theorem sanitizeInput_keeps_angle_brackets :
  sanitizeInput (VObj [("name", VStr "test<script>"); ("value", VStr "normal")])
  = VObj [("name", VStr "test<script>"); ("value", VStr "normal")]
  /\ sanitizeInput (VStr "test<script>alert(1)</script>")
     = VObj [("data", VStr "test<script>alert(1)</script>")]
  /\ (forall properties, sanitizeInput (VObj properties) = VObj properties)
  /\ (forall text, sanitizeInput (VStr text) = VObj [("data", VStr text)]).
Proof.
  repeat split; reflexivity.
Qed.

(** ** The dispatcher: [findMany] *)

(** C1.  One input item, operation [findMany], a client whose [find]
    returns the two documents [ada] and [bob]: [execute] returns ONE
    record, the [findMany] envelope holding both documents as [data],
    since [findDocuments] has wrapped the client's array before the
    [Array.isArray] test of [execute] sees it. *)
Theorem execute_findMany_two_documents_one_record :
  execute (P := engine_excerpt) (sdk := memory_sdk)
    (sample_host "findMany" ["{}"] false) (memory_world [ada; bob])
  = (ok [[ {| json := VObj [("operation", VStr "findMany");
                            ("success", VBool true);
                            ("data", VArr [ada; bob])];
              pairedItem := link 0 |} ]],
     @mkWorld memory_sdk [ada; bob] [(collection_find, [VObj []; VObj []])]).
Proof.
  vm_compute. reflexivity.
Qed.

(** ** Statements and [returnData] *)

Section FrameLemmas.
Context {sdk : AstraSdk}.

Lemma with_returnData_same : forall st : State,
    with_returnData st (returnData st) = st.
Proof. intros [w records]. reflexivity. Qed.

Lemma silent_keeps_returnData : forall A (m : M A) st,
    silent m -> returnData (snd (m st)) = returnData st.
Proof.
  intros A m st Hm.
  rewrite <- (with_returnData_same st) at 1.
  rewrite Hm. reflexivity.
Qed.

Lemma silent_ret : forall A (a : A), silent (ret a).
Proof. intros A a st records. reflexivity. Qed.

Lemma silent_fail : forall A (e : exn), silent (fail (A := A) e).
Proof. intros A e st records. reflexivity. Qed.

Lemma silent_lift : forall A (r : completion A), silent (lift r).
Proof. intros A r st records. reflexivity. Qed.

Lemma silent_call : forall collection method args,
    silent (call collection method args).
Proof.
  intros collection method args st records. unfold call. simpl.
  destruct (invoke collection method args (store (world st))); reflexivity.
Qed.

Lemma silent_bind : forall A B (m : M A) (k : A -> M B),
    silent m -> (forall a, silent (k a)) -> silent (bind m k).
Proof.
  intros A B m k Hm Hk st records. unfold bind.
  rewrite Hm. destruct (m st) as [[e | a] st']; simpl.
  - reflexivity.
  - rewrite Hk. reflexivity.
Qed.

Lemma silent_try_catch : forall A (body : M A) (handler : exn -> M A),
    silent body -> (forall e, silent (handler e)) -> silent (try_catch body handler).
Proof.
  intros A body handler Hb Hh st records. unfold try_catch.
  rewrite Hb. destruct (body st) as [[e | a] st']; simpl.
  - rewrite Hh. reflexivity.
  - reflexivity.
Qed.

Lemma silent_appends : forall A (m : M A), silent m -> appends m.
Proof.
  intros A m Hm st.
  rewrite (silent_keeps_returnData _ m (with_returnData st []) Hm). simpl.
  rewrite app_nil_r.
  rewrite <- (with_returnData_same st) at 1.
  rewrite (Hm (with_returnData st []) (returnData st)) at 1.
  reflexivity.
Qed.

Lemma appends_push : forall item, appends (push item).
Proof. intros item st. reflexivity. Qed.

Lemma appends_bind : forall A B (m : M A) (k : A -> M B),
    appends m -> (forall a, appends (k a)) -> appends (bind m k).
Proof.
  intros A B m k Hm Hk st. unfold bind.
  rewrite (Hm st).
  destruct (m (with_returnData st [])) as [[e | a] st1]; simpl.
  - reflexivity.
  - rewrite (Hk a (with_returnData st1 _)).
    rewrite (Hk a st1). simpl.
    rewrite app_assoc. reflexivity.
Qed.

Lemma appends_try_catch : forall A (body : M A) (handler : exn -> M A),
    appends body -> (forall e, appends (handler e)) ->
    appends (try_catch body handler).
Proof.
  intros A body handler Hb Hh st. unfold try_catch.
  rewrite (Hb st).
  destruct (body (with_returnData st [])) as [[e | a] st1]; simpl.
  - rewrite (Hh e (with_returnData st1 _)).
    rewrite (Hh e st1). simpl.
    rewrite app_assoc. reflexivity.
  - reflexivity.
Qed.

Lemma appends_for_of : forall A (xs : list A) (body : A -> M unit),
    (forall x, appends (body x)) -> appends (for_of xs body).
Proof.
  intros A xs body Hbody. induction xs as [| x rest IH]; simpl.
  - apply silent_appends, silent_ret.
  - apply appends_bind; [apply Hbody | intros _; exact IH].
Qed.
End FrameLemmas.

(** ** The handlers *)

Ltac prove_silent :=
  repeat first
    [ apply silent_ret | apply silent_fail | apply silent_lift | apply silent_call
    | apply silent_bind; [| intros ?]
    | apply silent_try_catch; [| intros ?] ].

Section Handlers.
Context {P : Platform} {sdk : AstraSdk}.

Lemma silent_call_and_format :
  forall node collection method args operation failure,
    silent (call_and_format node collection method args operation failure).
Proof. intros. unfold call_and_format. prove_silent. Qed.

Lemma silent_run_operation : forall this collectionObj operation i,
    silent (run_operation this collectionObj operation i).
Proof.
  intros this collectionObj operation i. unfold run_operation.
  repeat match goal with
    | |- context [is_operation operation ?name] =>
        destruct (is_operation operation name)
    end;
    unfold handleInsertOne, handleInsertMany, handleFindMany, handleFindOne,
      handleUpdateMany, handleDelete, handleFindAndUpdate, handleFindAndReplace,
      handleFindAndDelete, handleEstimatedDocumentCount,
      insertOneDocument, insertManyDocuments, findDocuments, findOneDocument,
      updateDocuments, deleteDocuments, findAndUpdateDocument,
      findAndReplaceDocument, findAndDeleteDocument, estimatedDocumentCount;
    try destruct (ToString operation);
    repeat first [ apply silent_call_and_format | progress prove_silent ].
Qed.

(** A parameter marked invalid stops the handler. *)
Lemma require_valid_invalid : forall node query fieldName,
    isValid (validateQuery node query fieldName) = false ->
    exists error, require_valid node query fieldName = inl error.
Proof.
  intros node query fieldName H. unfold require_valid. rewrite H. simpl.
  eexists. reflexivity.
Qed.

Lemma require_valid_valid : forall node query fieldName,
    isValid (validateQuery node query fieldName) = true ->
    require_valid node query fieldName = ok tt.
Proof.
  intros node query fieldName H. unfold require_valid. rewrite H. reflexivity.
Qed.
End Handlers.

(** ** Validation comes first *)

Ltac run_checks :=
  repeat (match goal with
          | |- context [parse_parameter ?t ?n ?i] =>
              destruct (parse_parameter t n i) eqn:?
          | |- context [parse_options ?t ?i] =>
              destruct (parse_options t i) eqn:?
          | |- context [require_valid ?nd ?q ?f] =>
              destruct (require_valid nd q f) as [? | []] eqn:?
          end; simpl).

Ltac refute_checks H :=
  exfalso;
  destruct H as [(name & error & Hin & Hparse)
                | [(Hoptions & error & Hparse)
                  | (name & query & Hin & Hparse & Hinvalid)]];
  simpl in *;
  try discriminate;
  try congruence;
  repeat match goal with
    | Hin : _ \/ _ |- _ => destruct Hin as [Hin | Hin]
    | Hin : False |- _ => destruct Hin
    end;
  subst; try congruence;
  match goal with
  | Hparse : parse_parameter ?t ?n ?i = inr ?q,
    Hinvalid : isValid (validateQuery ?nd ?q ?n) = false |- _ =>
      destruct (require_valid_invalid nd q n Hinvalid); congruence
  | Hparse : parse_parameter ?t ?n ?i = inr ?q,
    Hother : parse_parameter ?t ?n ?i = inr ?q' |- _ =>
      rewrite Hparse in Hother; injection Hother as <-;
      destruct (require_valid_invalid _ q n Hinvalid); congruence
  end.

Section ValidationFirst.
Context {P : Platform} {sdk : AstraSdk}.

Lemma run_operation_validation_failure :
  forall this collectionObj (operation : string) i st,
    local_validation_fails this operation i ->
    exists error,
      run_operation this collectionObj (VStr operation) i st = (inl error, st).
Proof.
  intros this collectionObj operation i st.
  unfold local_validation_fails, parsed_parameters, parses_options,
    validated_parameters, run_operation, is_operation.
  repeat match goal with
    | |- context [String.eqb operation ?name] =>
        destruct (String.eqb_spec operation name) as [-> | ?]; [simpl |]
    end;
    simpl; intros Hfail;
    unfold handleInsertOne, handleInsertMany, handleFindMany, handleFindOne,
      handleUpdateMany, handleDelete, handleFindAndUpdate, handleFindAndReplace,
      handleFindAndDelete, handleEstimatedDocumentCount, bind, lift;
    run_checks;
    try solve [eexists; reflexivity];
    refute_checks Hfail.
Qed.

(** C3.  When a local validation step of item [i] fails (a parameter that
    does not parse as JSON, options that [parseAstraOptions] rejects, a
    query that [validateQuery] marks invalid), the processing of the item
    throws in the state it started in: no method of the collection was
    called, the store is as it was, and no record was pushed. *)
Theorem validation_failure_sends_no_request :
  forall this collectionObj links (operation : string) i st,
    local_validation_fails this operation i ->
    exists error,
      process_item this collectionObj links (VStr operation) i st
      = (inl error, st).
Proof.
  intros this collectionObj links operation i st Hfail.
  destruct (run_operation_validation_failure this collectionObj operation i st Hfail)
    as [error Hrun].
  exists error. unfold process_item, bind. rewrite Hrun. reflexivity.
Qed.
End ValidationFirst.

(** Item 1 of three [findOne] items has the array [[]] as its filter. *)
Lemma validation_failure_sends_no_request_witness :
  local_validation_fails (P := engine_excerpt)
    (sample_host "findOne" ["{}"; "[]"; "{}"] true) "findOne" 1
  /\ exists error,
      process_item (P := engine_excerpt) (sdk := memory_sdk)
        (sample_host "findOne" ["{}"; "[]"; "{}"] true) (VStr "users")
        (generatePairedItemData 3 PrimFloat.zero) (VStr "findOne") 1
        {| world := memory_world [ada]; returnData := [] |}
      = (inl error, {| world := memory_world [ada]; returnData := [] |}).
Proof.
  assert (H : local_validation_fails (P := engine_excerpt)
                (sample_host "findOne" ["{}"; "[]"; "{}"] true) "findOne" 1).
  { right. right. exists "filter", (VArr []).
    split; [simpl; auto | split; reflexivity]. }
  split.
  - exact H.
  - apply (validation_failure_sends_no_request (P := engine_excerpt)
             (sdk := memory_sdk)).
    exact H.
Defined.

(** ** The loop of [execute] *)

Section Loop.
Context {P : Platform} {sdk : AstraSdk}.

Lemma for_of_push_returns : forall A (xs : list A) (f : A -> INodeExecutionData) st,
    fst (for_of xs (fun x => push (f x)) st) = inr tt.
Proof.
  intros A xs f. induction xs as [| x rest IH]; intros st; simpl.
  - reflexivity.
  - unfold bind. simpl. apply IH.
Qed.

Lemma appends_process_item : forall this collectionObj links operation i,
    appends (process_item this collectionObj links operation i).
Proof.
  intros this collectionObj links operation i. unfold process_item.
  apply appends_bind.
  - apply silent_appends, silent_run_operation.
  - intros result. destruct (is_operation operation "findMany").
    + apply appends_bind; [apply silent_appends, silent_lift |].
      intros listed. destruct (js_or listed result);
        try apply appends_push.
      apply appends_for_of. intros x. apply appends_push.
    + apply appends_bind; [apply silent_appends, silent_lift |].
      intros formatted. apply appends_push.
Qed.

(** A failing item has pushed nothing. *)
Lemma process_item_failure_pushes_nothing :
  forall this collectionObj links operation i st st' error,
    process_item this collectionObj links operation i st = (inl error, st') ->
    returnData st' = returnData st.
Proof.
  intros this collectionObj links operation i st st' error.
  unfold process_item, bind.
  pose proof (silent_keeps_returnData _
                (run_operation this collectionObj operation i) st
                (silent_run_operation this collectionObj operation i)) as Hkeep.
  destruct (run_operation this collectionObj operation i st) as [[e | result] st1];
    simpl in Hkeep.
  - intros H. injection H as _ <-. exact Hkeep.
  - destruct (is_operation operation "findMany").
    + unfold lift.
      destruct (get_prop result "documents") as [e | listed].
      * intros H. injection H as _ <-. exact Hkeep.
      * destruct (js_or listed result) eqn:Hdocs;
          try (unfold push; intros H; discriminate H).
        intros H.
        pose proof (for_of_push_returns _ elements
                      (fun document =>
                         {| json := sanitizeInput document;
                            pairedItem := item_link links i |}) st1) as Hret.
        cbv beta in Hret. rewrite H in Hret. discriminate Hret.
    + unfold lift.
      destruct (formatAstraResponse result (str operation)) as [e | formatted].
      * intros H. injection H as _ <-. exact Hkeep.
      * unfold push. intros H. discriminate H.
Qed.

Lemma call_and_format_returns :
  forall node collection method args operation failure st st' formatted,
    call_and_format node collection method args operation failure st
    = (inr formatted, st') ->
    exists result, formatAstraResponse result operation = inr formatted.
Proof.
  intros node collection method args operation failure st st' formatted.
  unfold call_and_format, try_catch, bind, call, lift.
  destruct (invoke collection method args (store (world st))) as [[e | result] s'].
  - simpl. intros H. discriminate H.
  - destruct (formatAstraResponse result operation) as [e | v] eqn:Hformat; simpl.
    + intros H. discriminate H.
    + intros H. injection H as <- _. exists result. exact Hformat.
Qed.

(** What [handleFindMany] returns is never an array: it is the envelope
    that [findDocuments] built around the client's result. *)
Lemma handleFindMany_returns_envelope : forall this collectionObj i st st' result,
    handleFindMany this collectionObj i st = (inr result, st') ->
    exists found_documents,
      result = VObj [("operation", VStr "findMany"); ("success", VBool true);
                     ("data", found_documents)].
Proof.
  intros this collectionObj i st st' result.
  unfold handleFindMany, bind, lift.
  destruct (parse_parameter this "filter" i) as [e | filter];
    [intros H; discriminate H |].
  destruct (parse_options this i) as [e | options];
    [intros H; discriminate H |].
  destruct (require_valid (getNode this) filter "filter") as [e | []];
    [intros H; discriminate H |].
  unfold findDocuments. intros H.
  apply call_and_format_returns in H. destruct H as [r Hr].
  exists r. cbv in Hr. injection Hr as <-. reflexivity.
Qed.

(** An item that is processed without a failure pushes exactly one record,
    linked to the item, whatever the operation: [findMany] too. *)
Lemma process_item_pushes_one_record :
  forall this collectionObj links operation i st st',
    process_item this collectionObj links operation i st = (inr tt, st') ->
    exists body,
      returnData st'
      = Array_push (returnData st)
          {| json := body; pairedItem := item_link links i |}.
Proof.
  intros this collectionObj links operation i st st'.
  unfold process_item, bind.
  pose proof (silent_keeps_returnData _
                (run_operation this collectionObj operation i) st
                (silent_run_operation this collectionObj operation i)) as Hkeep.
  destruct (is_operation operation "findMany") eqn:Hmany.
  - assert (Hop : operation = VStr "findMany").
    { destruct operation; simpl in Hmany; try discriminate Hmany.
      apply String.eqb_eq in Hmany. subst. reflexivity. }
    subst operation.
    change (run_operation this collectionObj (VStr "findMany") i)
      with (handleFindMany this collectionObj i) in *.
    destruct (handleFindMany this collectionObj i st) as [[e | result] st1] eqn:Hrun.
    + intros H. discriminate H.
    + destruct (handleFindMany_returns_envelope _ _ _ _ _ _ Hrun) as [docs ->].
      simpl in *. unfold bind, lift, push. simpl.
      intros H. injection H as <-. simpl. rewrite Hkeep.
      eexists. reflexivity.
  - destruct (run_operation this collectionObj operation i st) as [[e | result] st1].
    + intros H. discriminate H.
    + unfold lift.
      destruct (formatAstraResponse result (str operation)) as [e | formatted].
      * intros H. discriminate H.
      * unfold push. intros H. injection H as <-. simpl in *. rewrite Hkeep.
        eexists. reflexivity.
Qed.

Lemma appends_iteration : forall this collectionObj links operation i,
    appends (iteration this collectionObj links operation i).
Proof.
  intros this collectionObj links operation i. unfold iteration.
  apply appends_try_catch.
  - apply appends_process_item.
  - intros e. destruct (continueOnFail this).
    + apply appends_push.
    + apply silent_appends, silent_fail.
Qed.

Lemma appends_for_items : forall this collectionObj links operation remaining i,
    appends (for_items this collectionObj links operation remaining i).
Proof.
  intros this collectionObj links operation remaining.
  induction remaining as [| remaining' IH]; intros i; simpl.
  - apply silent_appends, silent_ret.
  - apply appends_bind; [apply appends_iteration | intros _; apply IH].
Qed.

(** The loop over [a + b] items is the loop over [a] items, then the loop
    over the [b] items that follow. *)
Lemma for_items_split : forall this collectionObj links operation a b i st,
    for_items this collectionObj links operation (a + b) i st
    = match for_items this collectionObj links operation a i st with
      | (inr _, st') => for_items this collectionObj links operation b (i + a) st'
      | (inl e, st') => (inl e, st')
      end.
Proof.
  intros this collectionObj links operation a b.
  induction a as [| a' IH]; intros i st; simpl.
  - rewrite Nat.add_0_r. reflexivity.
  - unfold bind.
    destruct (iteration this collectionObj links operation i st) as [[e | []] st1].
    + reflexivity.
    + rewrite IH. rewrite Nat.add_succ_r. reflexivity.
Qed.

(** With continue-on-fail on, the loop does not throw. *)
Lemma for_items_continue_returns :
  forall this collectionObj links operation remaining i st,
    continueOnFail this = true ->
    fst (for_items this collectionObj links operation remaining i st) = inr tt.
Proof.
  intros this collectionObj links operation remaining.
  induction remaining as [| remaining' IH]; intros i st Hcontinue; simpl.
  - reflexivity.
  - unfold bind, iteration, try_catch.
    destruct (process_item this collectionObj links operation i st)
      as [[e | []] st1].
    + rewrite Hcontinue. simpl. apply IH. exact Hcontinue.
    + apply IH. exact Hcontinue.
Qed.

Lemma item_link_generated : forall n inputIndex i,
    i < n ->
    item_link (generatePairedItemData n inputIndex) i
    = VObj [("item", VNum (number_of_nat i)); ("input", VNum inputIndex)].
Proof.
  intros n inputIndex i Hi. unfold item_link, generatePairedItemData.
  set (f := fun index : nat =>
              VObj [("item", VNum (number_of_nat index));
                    ("input", VNum inputIndex)]).
  rewrite nth_indep with (d' := f 0)
    by (rewrite length_map, length_seq; exact Hi).
  rewrite (map_nth f (seq 0 n) 0 i). rewrite seq_nth by exact Hi. reflexivity.
Qed.

(** [execute], once the statements before the loop have returned. *)
Lemma execute_prepared : forall this collectionObj operation w,
    prepared this collectionObj operation ->
    execute this w
    = match for_items this collectionObj
              (generatePairedItemData (length (getInputData this)) PrimFloat.zero)
              operation (length (getInputData this)) 0
              {| world := w; returnData := [] |} with
      | (inr _, st) => (inr [returnData st], world st)
      | (inl error, st) =>
          if continueOnFail this
          then (inr [Array_push (returnData st)
                       (error_item error
                          (VArr [VObj [("item", VNum PrimFloat.zero)]]))],
                world st)
          else (inl error, world st)
      end.
Proof.
  intros this collectionObj operation w
    (credentials & validatedCredentials & client & collection & keyspace & db
     & Hcred & Hvalid & Hclient & Hop & Hcoll & Hks & Hksname & Hcollname
     & Hdb & Hhandle).
  unfold ok in *.
  unfold execute, execute_body, execute_try, bind, try_catch, lift.
  rewrite Hcred; cbv beta iota. rewrite Hvalid; cbv beta iota.
  rewrite Hclient; cbv beta iota. rewrite Hop; cbv beta iota.
  rewrite Hcoll; cbv beta iota. rewrite Hks; cbv beta iota.
  rewrite Hksname; cbv beta iota. rewrite Hcollname; cbv beta iota.
  rewrite Hdb; cbv beta iota. rewrite Hhandle; cbv beta iota.
  destruct (for_items this collectionObj _ operation _ 0 _) as [[e | []] st].
  - destruct (continueOnFail this); reflexivity.
  - reflexivity.
Qed.
End Loop.

(** ** A failing item *)

Section ContinueOnFail.
Context {P : Platform} {sdk : AstraSdk}.

Lemma for_items_from : forall this collectionObj links operation n a i st,
    a <= n ->
    for_items this collectionObj links operation n i st
    = match for_items this collectionObj links operation a i st with
      | (inr _, st') =>
          for_items this collectionObj links operation (n - a) (i + a) st'
      | (inl e, st') => (inl e, st')
      end.
Proof.
  intros this collectionObj links operation n a i st Ha.
  rewrite <- for_items_split. f_equal. lia.
Qed.

(** C2.  Let the statements before the loop have returned, let the items
    before item [i] have been processed, reaching the state [st_i], and
    let the processing of item [i] throw [error] there, ending in [st'].
    With continue-on-fail on, [execute] returns the records of the items
    before [i], then exactly one record [{error: error.message}] linked
    to item [i], then the records [rest] that the loop produces for the
    items after [i], run from the world the failure left; with
    continue-on-fail off, [execute] throws this [error] in that world,
    and returns no record. *)
Theorem execute_item_failure :
  forall this collectionObj operation w i st_i st' error,
    prepared this collectionObj operation ->
    i < length (getInputData this) ->
    for_items this collectionObj
      (generatePairedItemData (length (getInputData this)) PrimFloat.zero)
      operation i 0 {| world := w; returnData := [] |} = (inr tt, st_i) ->
    process_item this collectionObj
      (generatePairedItemData (length (getInputData this)) PrimFloat.zero)
      operation i st_i = (inl error, st') ->
    if continueOnFail this
    then exists rest w_end,
        for_items this collectionObj
          (generatePairedItemData (length (getInputData this)) PrimFloat.zero)
          operation (length (getInputData this) - S i) (S i)
          (with_returnData st' [])
        = (inr tt, {| world := w_end; returnData := rest |})
        /\ execute this w
           = (inr [(returnData st_i
                    ++ {| json := VObj [("error", VStr (message error))];
                          pairedItem := link i |} :: rest)%list],
              w_end)
    else execute this w = (inl error, world st').
Proof.
  intros this collectionObj operation w i st_i st' error Hprepared Hi Hbefore Hfail.
  pose proof (process_item_failure_pushes_nothing _ _ _ _ _ _ _ _ Hfail) as Hsame.
  assert (Hloop :
    for_items this collectionObj
      (generatePairedItemData (length (getInputData this)) PrimFloat.zero)
      operation (length (getInputData this)) 0 {| world := w; returnData := [] |}
    = if continueOnFail this
      then for_items this collectionObj
             (generatePairedItemData (length (getInputData this)) PrimFloat.zero)
             operation (length (getInputData this) - S i) (S i)
             {| world := world st';
                returnData :=
                  Array_push (returnData st_i) (error_item error (link i)) |}
      else (inl error, st')).
  { rewrite (for_items_from _ _ _ _ _ i 0 _ (Nat.lt_le_incl _ _ Hi)).
    rewrite Hbefore.
    replace (length (getInputData this) - i)
      with (S (length (getInputData this) - S i)) by lia.
    simpl. unfold bind at 1. unfold iteration, try_catch. rewrite Hfail.
    destruct (continueOnFail this).
    - unfold push at 1. cbv beta iota. rewrite Hsame.
      rewrite (item_link_generated _ PrimFloat.zero i Hi). reflexivity.
    - reflexivity. }
  rewrite (execute_prepared this collectionObj operation w Hprepared), Hloop.
  destruct (continueOnFail this) eqn:Hcontinue.
  - rewrite (appends_for_items _ _ _ _ _ _
               {| world := world st';
                  returnData :=
                    Array_push (returnData st_i) (error_item error (link i)) |}).
    pose proof (for_items_continue_returns this collectionObj
                  (generatePairedItemData (length (getInputData this)) PrimFloat.zero)
                  operation (length (getInputData this) - S i) (S i)
                  (with_returnData st' []) Hcontinue) as Hreturns.
    change (with_returnData {| world := world st'; returnData := _ |} [])
      with (with_returnData st' []).
    destruct (for_items this collectionObj _ operation _ (S i)
                (with_returnData st' []))
      as [r [w_end rest]].
    simpl in Hreturns. subst r.
    exists rest, w_end. split.
    + reflexivity.
    + simpl. unfold Array_push. rewrite <- app_assoc. reflexivity.
  - reflexivity.
Qed.
End ContinueOnFail.

Lemma sample_host_prepared : forall operation filters continue,
    prepared (sdk := memory_sdk)
      (sample_host operation filters continue) (VStr "users") (VStr operation).
Proof.
  intros operation filters continue. unfold prepared.
  exists (VObj [("endpoint", VStr "https://db.example.com");
                ("token", VStr "AstraCS:token")]),
    {| endpoint := "https://db.example.com"; token := "AstraCS:token" |},
    "AstraCS:token", (VStr "users"), (VStr "default_keyspace"),
    ("https://db.example.com", VObj [("keyspace", VStr "default_keyspace")]).
  repeat split; reflexivity.
Defined.

(** Three [findOne] items on a store holding [ada]; item 1 fails its filter
    validation.  With continue-on-fail on, the output is the record of item
    0, the error record of item 1 and what the loop makes of item 2; with
    it off, [execute] throws the validation error. *)
Lemma execute_item_failure_witness :
  (exists rest w_end,
      for_items (P := engine_excerpt) (sdk := memory_sdk)
        (sample_host "findOne" three_filters true) (VStr "users")
        (generatePairedItemData 3 PrimFloat.zero) (VStr "findOne") 1 2
        (with_returnData after_first_item [])
      = (inr tt, {| world := w_end; returnData := rest |})
      /\ execute (P := engine_excerpt) (sdk := memory_sdk)
           (sample_host "findOne" three_filters true) (memory_world [ada])
         = (inr [ ({| json := found_record ada; pairedItem := link 0 |}
                   :: {| json :=
                           VObj [("error",
                                  VStr "Invalid filter: filter cannot be an array")];
                         pairedItem := link 1 |}
                   :: rest) ],
            w_end))
  /\ execute (P := engine_excerpt) (sdk := memory_sdk)
       (sample_host "findOne" three_filters false) (memory_world [ada])
     = (inl filter_is_array, world after_first_item).
Proof.
  split.
  - apply (execute_item_failure (P := engine_excerpt) (sdk := memory_sdk)
             (sample_host "findOne" three_filters true) (VStr "users")
             (VStr "findOne") (memory_world [ada]) 1
             after_first_item after_first_item filter_is_array).
    + apply sample_host_prepared.
    + simpl. lia.
    + vm_compute. reflexivity.
    + vm_compute. reflexivity.
  - apply (execute_item_failure (P := engine_excerpt) (sdk := memory_sdk)
             (sample_host "findOne" three_filters false) (VStr "users")
             (VStr "findOne") (memory_world [ada]) 1
             after_first_item after_first_item filter_is_array).
    + apply sample_host_prepared.
    + simpl. lia.
    + vm_compute. reflexivity.
    + vm_compute. reflexivity.
Defined.

(** ** [findOne] when nothing matches *)

(** C4, as stated, fails for three [findOne] items on an empty store with
    continue-on-fail off: [execute] returns three records, and none has the
    body [{}]. *)
Lemma execute_findOne_no_match_body_not_empty :
  ~ (exists records w',
        execute (P := engine_excerpt) (sdk := memory_sdk)
          (sample_host "findOne" ["{}"; "{}"; "{}"] false) (memory_world [])
        = (ok [records], w')
        /\ length records = 3
        /\ forall record, In record records -> json record = VObj []).
Proof.
  intros (records & w' & Hexecute & _ & Hbodies).
  vm_compute in Hexecute.
  injection Hexecute as Hrecords _. subst records.
  specialize (Hbodies _ (or_introl eq_refl)).
  discriminate Hbodies.
Qed.

Section FindOneNothing.
Context {P : Platform} {sdk : AstraSdk}.

Lemma parse_options_returns_object : forall this i options,
    parse_options this i = ok options -> or_empty options = options.
Proof.
  intros this i options. unfold parse_options, parseAstraOptions, rbind, ok.
  intros H.
  repeat (cbv zeta in H;
          match type of H with
          | match ?c with inl _ => _ | inr _ => _ end = _ =>
              destruct c; [discriminate H |]
          end).
  injection H as <-. reflexivity.
Qed.

Lemma process_item_nothing_found :
  forall this collectionObj no_match links i st filter options,
    parse_parameter this "filter" i = ok filter ->
    parse_options this i = ok options ->
    isValid (validateQuery (getNode this) filter "filter") = true ->
    finds_nothing collectionObj no_match [filter; options] ->
    no_match (store (world st)) ->
    exists w',
      no_match (store w')
      /\ process_item this collectionObj links (VStr "findOne") i st
         = (inr tt,
            {| world := w';
               returnData :=
                 Array_push (returnData st)
                   {| json := found_record VNull;
                      pairedItem := item_link links i |} |}).
Proof.
  intros this collectionObj no_match links i st filter options
    Hfilter Hoptions Hvalid Hnull Hstore.
  unfold ok in *.
  unfold process_item, run_operation, is_operation. simpl.
  unfold handleFindOne, bind, lift.
  rewrite Hfilter, Hoptions. cbv beta iota.
  rewrite (require_valid_valid _ _ _ Hvalid). unfold ok. cbv beta iota.
  unfold findOneDocument, call_and_format, try_catch, bind, call, lift.
  rewrite (parse_options_returns_object this i options Hoptions).
  destruct (Hnull (store (world st)) Hstore) as [Hresult Hafter].
  destruct (invoke collectionObj collection_findOne [filter; options]
              (store (world st))) as [r store'].
  simpl in Hresult, Hafter. subst r. simpl.
  eexists. split; [| reflexivity]. exact Hafter.
Qed.

Lemma for_items_nothing_found :
  forall this collectionObj no_match links remaining i st,
    (forall j, i <= j < i + remaining ->
       exists filter options,
         parse_parameter this "filter" j = ok filter
         /\ parse_options this j = ok options
         /\ isValid (validateQuery (getNode this) filter "filter") = true
         /\ finds_nothing collectionObj no_match [filter; options]) ->
    no_match (store (world st)) ->
    exists w',
      for_items this collectionObj links (VStr "findOne") remaining i st
      = (inr tt,
         {| world := w';
            returnData :=
              (returnData st
               ++ map (fun j => {| json := found_record VNull;
                                   pairedItem := item_link links j |})
                    (seq i remaining))%list |}).
Proof.
  intros this collectionObj no_match links remaining.
  induction remaining as [| remaining' IH]; intros i st Hitems Hstore.
  - simpl. exists (world st). rewrite app_nil_r.
    destruct st; reflexivity.
  - destruct (Hitems i ltac:(lia)) as (filter & options & Hf & Ho & Hv & Hnull).
    destruct (process_item_nothing_found this collectionObj no_match links i st
                filter options Hf Ho Hv Hnull Hstore) as (w1 & Hstore1 & Hitem).
    simpl. unfold bind at 1. unfold iteration, try_catch. rewrite Hitem.
    destruct (IH (S i)
                {| world := w1;
                   returnData :=
                     Array_push (returnData st)
                       {| json := found_record VNull;
                          pairedItem := item_link links i |} |}
                ltac:(intros j Hj; apply Hitems; lia) Hstore1)
      as [w' Hrest].
    exists w'. rewrite Hrest. simpl. unfold Array_push.
    rewrite <- app_assoc. reflexivity.
Qed.

(** C4, amended.  When every input item requests [findOne] with a filter
    that parses and is valid, the call [findOne(filter, options)] that the
    item makes returns [null] on the store of the run (the filter of the
    item matches no document; other filters may match), and
    continue-on-fail is off, [execute] throws nothing and returns exactly
    one record per input item, the record at position [i] linked to item
    [i]; its body is not [{}] but a response envelope whose [operation] is
    ["findOne"] and whose [success] is [true]. *)
Theorem execute_findOne_no_match :
  forall this collectionObj (no_match : Store -> Prop) w,
    prepared this collectionObj (VStr "findOne") ->
    continueOnFail this = false ->
    (forall i, i < length (getInputData this) ->
       exists filter options,
         parse_parameter this "filter" i = ok filter
         /\ parse_options this i = ok options
         /\ isValid (validateQuery (getNode this) filter "filter") = true
         /\ finds_nothing collectionObj no_match [filter; options]) ->
    no_match (store w) ->
    exists records w',
      execute this w = (ok [records], w')
      /\ length records = length (getInputData this)
      /\ forall i, i < length (getInputData this) ->
           exists record,
             nth_error records i = Some record
             /\ pairedItem record = link i
             /\ get_prop (json record) "operation" = ok (VStr "findOne")
             /\ get_prop (json record) "success" = ok (VBool true)
             /\ json record <> VObj [].
Proof.
  intros this collectionObj no_match w Hprepared Hoff Hitems Hstore.
  rewrite (execute_prepared this collectionObj _ w Hprepared).
  destruct (for_items_nothing_found this collectionObj no_match
              (generatePairedItemData (length (getInputData this)) PrimFloat.zero)
              (length (getInputData this)) 0 {| world := w; returnData := [] |}
              ltac:(intros j Hj; apply Hitems; lia) Hstore) as [w' Hloop].
  rewrite Hloop. simpl.
  eexists. exists w'. split; [reflexivity |]. split.
  - rewrite length_map, length_seq. reflexivity.
  - intros i Hi.
    exists {| json := found_record VNull; pairedItem := link i |}.
    split.
    + rewrite nth_error_map, nth_error_seq.
      destruct (Nat.ltb_spec i (length (getInputData this))); [| lia].
      simpl. rewrite (item_link_generated _ PrimFloat.zero i Hi). reflexivity.
    + simpl. repeat split. discriminate.
Qed.
End FindOneNothing.

Lemma sample_host_prepared_matching : forall operation filters continue,
    prepared (sdk := matching_sdk)
      (sample_host operation filters continue) (VStr "users") (VStr operation).
Proof.
  intros operation filters continue. unfold prepared.
  exists (VObj [("endpoint", VStr "https://db.example.com");
                ("token", VStr "AstraCS:token")]),
    {| endpoint := "https://db.example.com"; token := "AstraCS:token" |},
    "AstraCS:token", (VStr "users"), (VStr "default_keyspace"),
    ("https://db.example.com", VObj [("keyspace", VStr "default_keyspace")]).
  repeat split; reflexivity.
Defined.

(** Three [findOne] items with the filter [{"name":"Zed"}], on a store
    holding [ada] and [bob]: no document matches, although the empty filter
    would find [ada]. *)
Lemma execute_findOne_no_match_witness :
  fst (@invoke matching_sdk (VStr "users") collection_findOne
         [VObj []; VObj []] [ada; bob]) = ok ada
  /\ exists records w',
      execute (P := engine_excerpt_names) (sdk := matching_sdk)
        (sample_host "findOne" [name_is_Zed; name_is_Zed; name_is_Zed] false)
        (@mkWorld matching_sdk [ada; bob] [])
      = (ok [records], w')
      /\ length records = 3
      /\ forall i, i < 3 ->
           exists record,
             nth_error records i = Some record
             /\ pairedItem record = link i
             /\ get_prop (json record) "operation" = ok (VStr "findOne")
             /\ get_prop (json record) "success" = ok (VBool true)
             /\ json record <> VObj [].
Proof.
  split; [reflexivity |].
  apply (execute_findOne_no_match (P := engine_excerpt_names) (sdk := matching_sdk)
           (sample_host "findOne" [name_is_Zed; name_is_Zed; name_is_Zed] false)
           (VStr "users")
           (fun documents => documents = [ada; bob])
           (@mkWorld matching_sdk [ada; bob] [])).
  - apply sample_host_prepared_matching.
  - reflexivity.
  - intros i Hi. exists (VObj [("name", VStr "Zed")]), (VObj []).
    destruct i as [| [| [| i]]]; [| | | simpl in Hi; lia];
      (split; [reflexivity |]); (split; [reflexivity |]);
      (split; [reflexivity |]);
      intros s Hstore; simpl in Hstore; subst s; split; reflexivity.
  - reflexivity.
Defined.

(** * Further properties of the code *)

(** ** Credentials *)

Lemma trim_start_suffix : forall l, exists removed, l = (removed ++ trim_start l)%list.
Proof.
  induction l as [| c rest [removed IH]]; simpl.
  - exists []. reflexivity.
  - destruct (is_white_space c).
    + exists (c :: removed). simpl. rewrite <- IH. reflexivity.
    + exists []. reflexivity.
Qed.

Lemma trim_start_head : forall l c rest,
    trim_start l = c :: rest -> is_white_space c = false.
Proof.
  induction l as [| d l' IH]; simpl; intros c rest H.
  - discriminate H.
  - destruct (is_white_space d) eqn:Hd.
    + apply (IH _ _ H).
    + injection H as <- _. exact Hd.
Qed.

Lemma trim_start_fixed : forall l,
    match l with [] => True | c :: _ => is_white_space c = false end ->
    trim_start l = l.
Proof.
  intros [| c rest] H; simpl.
  - reflexivity.
  - rewrite H. reflexivity.
Qed.

(** Trimming a trimmed string changes nothing. *)
Lemma trim_idempotent : forall s, trim (trim s) = trim s.
Proof.
  intros s. unfold trim.
  rewrite list_ascii_of_string_of_list_ascii.
  set (a := trim_start (list_ascii_of_string s)).
  set (b := trim_start (rev a)).
  assert (Hb : trim_start b = b).
  { apply trim_start_fixed. destruct b as [| c rest] eqn:Eb; [exact I |].
    apply (trim_start_head (rev a) c rest). exact Eb. }
  assert (Hfront : trim_start (rev b) = rev b).
  { apply trim_start_fixed. destruct (rev b) as [| c rest] eqn:Er; [exact I |].
    destruct (trim_start_suffix (rev a)) as [removed Hsplit]. fold b in Hsplit.
    apply (f_equal (@rev ascii)) in Hsplit.
    rewrite rev_involutive, rev_app_distr, Er in Hsplit. simpl in Hsplit.
    apply (trim_start_head (list_ascii_of_string s) c (rest ++ rev removed)%list).
    exact Hsplit. }
  rewrite Hfront, rev_involutive, Hb. reflexivity.
Qed.

Lemma validateAstraCredentialsRaw_cases : forall fields,
    validateAstraCredentialsRaw (VObj fields)
    = match nonempty_string (field fields "endpoint") with
      | None => throw (Error "Astra DB endpoint is required")
      | Some e =>
          match nonempty_string (field fields "token") with
          | None => throw (Error "Astra DB token is required")
          | Some t => ok {| endpoint := trim e; token := trim t |}
          end
      end.
Proof.
  intros fields. unfold validateAstraCredentialsRaw, get_prop, rbind, ok, field.
  destruct (match lookup "endpoint" fields with Some x => x | None => VUndefined end)
    as [| | b | n | e | l | o | f]; simpl;
    try reflexivity;
    try (destruct b; reflexivity);
    try (destruct (negb (PrimFloat.is_nan n || PrimFloat.is_zero n)); reflexivity).
  destruct (String.eqb e ""); simpl; [reflexivity |].
  destruct (match lookup "token" fields with Some x => x | None => VUndefined end)
    as [| | b | n | t | l | o | f]; simpl;
    try reflexivity;
    try (destruct b; reflexivity);
    try (destruct (negb (PrimFloat.is_nan n || PrimFloat.is_zero n)); reflexivity).
  destruct (String.eqb t ""); reflexivity.
Qed.

(** X1.  On a credentials object, [validateAstraCredentialsRaw] returns
    exactly when [endpoint] and [token] are both non-empty strings, and
    then returns them trimmed; otherwise it throws a plain [Error] that
    names the first of the two fields that is missing, empty or not a
    string, [endpoint] before [token]. *)
Theorem validateAstraCredentialsRaw_object : forall fields,
    validateAstraCredentialsRaw (VObj fields)
    = match nonempty_string (field fields "endpoint") with
      | None => throw (Error "Astra DB endpoint is required")
      | Some e =>
          match nonempty_string (field fields "token") with
          | None => throw (Error "Astra DB token is required")
          | Some t => ok {| endpoint := trim e; token := trim t |}
          end
      end.
Proof. exact validateAstraCredentialsRaw_cases. Qed.

(** X2.  Credentials that [validateAstraCredentialsRaw] returns carry no
    white space at either end: trimming them again changes nothing. *)
Theorem validateAstraCredentialsRaw_trimmed : forall credentials validated,
    validateAstraCredentialsRaw credentials = ok validated ->
    trim (endpoint validated) = endpoint validated
    /\ trim (token validated) = token validated.
Proof.
  intros credentials validated. unfold validateAstraCredentialsRaw, rbind, ok.
  destruct (get_prop credentials "endpoint") as [e | endpoint_v];
    [intros H; discriminate H |].
  destruct (negb (ToBoolean endpoint_v)
            || negb (String.eqb (typeof endpoint_v) "string"));
    [intros H; discriminate H |].
  destruct (get_prop credentials "token") as [e | token_v];
    [intros H; discriminate H |].
  destruct (negb (ToBoolean token_v) || negb (String.eqb (typeof token_v) "string"));
    [intros H; discriminate H |].
  intros H. injection H as <-. simpl. split; apply trim_idempotent.
Qed.

Lemma validateAstraCredentialsRaw_trimmed_witness :
  validateAstraCredentialsRaw
    (VObj [("endpoint", VStr "  https://db.example.com ");
           ("token", VStr " AstraCS:token  ")])
  = ok {| endpoint := "https://db.example.com"; token := "AstraCS:token" |}
  /\ trim "https://db.example.com" = "https://db.example.com"
  /\ trim "AstraCS:token" = "AstraCS:token".
Proof.
  split.
  - reflexivity.
  - apply (validateAstraCredentialsRaw_trimmed
             (VObj [("endpoint", VStr "  https://db.example.com ");
                    ("token", VStr " AstraCS:token  ")])
             {| endpoint := "https://db.example.com"; token := "AstraCS:token" |}).
    reflexivity.
Defined.

(** ** Names *)

Lemma is_letter_word_char : forall c, is_letter c = true -> is_word_char c = true.
Proof. intros c H. unfold is_word_char. rewrite H. reflexivity. Qed.

(** X3.  A name that [validateKeyspaceCollectionName] lets through is a
    string whose text, once trimmed, is not empty, starts with a letter and
    holds only letters, digits and underscores: no dash, dot, dollar sign
    or inner white space reaches the client. *)
Theorem validateKeyspaceCollectionName_accepted_shape : forall node name type,
    validateKeyspaceCollectionName node name type = ok tt ->
    exists text first others,
      name = VStr text
      /\ list_ascii_of_string (trim text) = first :: others
      /\ is_letter first = true
      /\ forall c, In c (first :: others) -> is_word_char c = true.
Proof.
  intros node name type H.
  destruct name as [| | b | n | text | l | o | f];
    try (unfold validateKeyspaceCollectionName in H; simpl in H;
         rewrite ?orb_true_r in H; discriminate H).
  apply validateKeyspaceCollectionName_passes_iff in H.
  unfold identifier_regex_test in H.
  destruct (list_ascii_of_string (trim text)) as [| first others] eqn:Htrim;
    [discriminate H |].
  apply andb_true_iff in H. destruct H as [Hfirst Hothers].
  exists text, first, others.
  split; [reflexivity | split; [exact Htrim | split; [exact Hfirst |]]].
  intros c [<- | Hin].
  - apply is_letter_word_char. exact Hfirst.
  - rewrite forallb_forall in Hothers. apply Hothers. exact Hin.
Qed.

Lemma validateKeyspaceCollectionName_accepted_shape_witness :
  validateKeyspaceCollectionName sample_node (VStr " users_2 ") "collection" = ok tt
  /\ exists text first others,
      VStr " users_2 " = VStr text
      /\ list_ascii_of_string (trim text) = first :: others
      /\ is_letter first = true
      /\ forall c, In c (first :: others) -> is_word_char c = true.
Proof.
  split.
  - reflexivity.
  - apply (validateKeyspaceCollectionName_accepted_shape sample_node
             (VStr " users_2 ") "collection").
    reflexivity.
Defined.

(** ** Queries *)

(** X4.  [validateQuery] marks a value valid exactly when it is an object
    that is neither [null] nor an array, and its error list tells the same
    story: empty when valid, exactly one message when not. *)
Theorem validateQuery_valid_iff_object : forall node query fieldName,
    isValid (validateQuery node query fieldName)
    = match query with VObj _ => true | _ => false end
    /\ length (errors (validateQuery node query fieldName))
       = if isValid (validateQuery node query fieldName) then 0 else 1.
Proof.
  intros node query fieldName. destruct query; split; reflexivity.
Qed.

(** ** Options *)

Lemma lookup_set_prop : forall k k' v o,
    lookup k (set_prop k' v o) = if String.eqb k k' then Some v else lookup k o.
Proof.
  intros k k' v o. induction o as [| [k0 v0] rest IH]; simpl.
  - reflexivity.
  - destruct (String.eqb_spec k' k0) as [-> | Hne]; simpl.
    + destruct (String.eqb k k0); reflexivity.
    + rewrite IH. destruct (String.eqb_spec k k0) as [-> | Hne'].
      * destruct (String.eqb_spec k0 k') as [<- | _]; [contradiction | reflexivity].
      * reflexivity.
Qed.

(** A value that is not [null] or [undefined] has every property read
    succeed. *)
Lemma get_prop_defined : forall v k,
    is_nullish v = false -> exists x, get_prop v k = inr x.
Proof.
  intros v k H. destruct v; simpl in *; try discriminate H; eexists; reflexivity.
Qed.

Ltac split_conditions H :=
  repeat match type of H with
    | context [if ?c then _ else _] =>
        match type of c with
        | bool => destruct c eqn:?; simpl in H
        end
    | context [parse_json_option ?node ?x ?msg] =>
        destruct (parse_json_option node x msg) eqn:?; simpl in H
    | context [Number ?x] =>
        destruct (Number x) eqn:?; simpl in H
    end.

Section OptionProperties.
Context {P : Platform}.

(** [parseAstraOptions], with its reads of [options] named. *)
Lemma parseAstraOptions_steps : forall node options,
    is_nullish options = false ->
    parseAstraOptions node options
    = (let limit_v := property options "limit" in
       let skip_v := property options "skip" in
       let sort_v := property options "sort" in
       let projection_v := property options "projection" in
       let upsert_v := property options "upsert" in
       let returnDocument_v := property options "returnDocument" in
       result <-
         (if negb (is_undefined limit_v)
          then limit <- Number limit_v ;;
               if negb (non_negative limit)
               then throw (NodeOperationError node "Limit must be a non-negative number")
               else ok (set_prop "limit" (VNum limit) [])
          else ok []) ;;
       result <-
         (if negb (is_undefined skip_v)
          then skip <- Number skip_v ;;
               if negb (non_negative skip)
               then throw (NodeOperationError node "Skip must be a non-negative number")
               else ok (set_prop "skip" (VNum skip) result)
          else ok result) ;;
       result <-
         (if ToBoolean sort_v
          then sort <- parse_json_option node sort_v
                         "Invalid sort format. Must be valid JSON" ;;
               ok (set_prop "sort" sort result)
          else ok result) ;;
       result <-
         (if ToBoolean projection_v
          then projection <- parse_json_option node projection_v
                               "Invalid projection format. Must be valid JSON" ;;
               ok (set_prop "projection" projection result)
          else ok result) ;;
       let result :=
         if negb (is_undefined upsert_v)
         then set_prop "upsert" (VBool (ToBoolean upsert_v)) result
         else result in
       let result :=
         if ToBoolean returnDocument_v
         then set_prop "returnDocument" returnDocument_v result
         else result in
       ok (VObj result))%comp.
Proof.
  intros node options Hdefined.
  unfold parseAstraOptions, property, non_negative.
  destruct options; try discriminate Hdefined; simpl;
    repeat match goal with
      | |- context [Number ?x] => destruct (Number x); simpl
      end;
    rewrite ?negb_involutive; reflexivity.
Qed.

Lemma parseAstraOptions_nullish : forall node options value,
    parseAstraOptions node options = ok value -> is_nullish options = false.
Proof.
  intros node options value H. destruct options; try reflexivity; discriminate H.
Qed.

(** X5.  What [parseAstraOptions] returns is an object that holds no
    other property than [limit], [skip], [sort], [projection], [upsert]
    and [returnDocument]: any other option of the input ([timeout],
    [chunkSize], [ordered], ...) is dropped and never reaches the client. *)
Theorem parseAstraOptions_known_names : forall node options parsed,
    parseAstraOptions node options = ok parsed ->
    exists result,
      parsed = VObj result
      /\ forall k x, lookup k result = Some x -> In k option_names.
Proof.
  intros node options parsed H.
  pose proof (parseAstraOptions_nullish _ _ _ H) as Hdefined.
  rewrite (parseAstraOptions_steps node options Hdefined) in H.
  unfold rbind, ok, throw in H. cbv zeta in H.
  split_conditions H; try discriminate H;
    injection H as <-; eexists; (split; [reflexivity |]);
    intros k x Hk; simpl in Hk; unfold option_names;
    repeat match type of Hk with
      | context [String.eqb k ?name] =>
          destruct (String.eqb_spec k name) as [-> | _]; [simpl; tauto |]
      end;
    discriminate Hk.
Qed.
(** X6.  A [limit] or [skip] in the options that [parseAstraOptions]
    returns is a number that is not [NaN] and not below zero, whatever the
    input held (a number, a numeric string, ...). *)
Theorem parseAstraOptions_numbers_checked : forall node options result,
    parseAstraOptions node options = ok (VObj result) ->
    (forall x, lookup "limit" result = Some x ->
               exists n, x = VNum n /\ non_negative n = true)
    /\ (forall x, lookup "skip" result = Some x ->
                  exists n, x = VNum n /\ non_negative n = true).
Proof.
  intros node options result H.
  pose proof (parseAstraOptions_nullish _ _ _ H) as Hdefined.
  rewrite (parseAstraOptions_steps node options Hdefined) in H.
  unfold rbind, ok, throw in H. cbv zeta in H.
  split_conditions H; try discriminate H;
    injection H as <-; split; intros x Hx; simpl in Hx;
    try discriminate Hx; injection Hx as <-;
    eexists; (split; [reflexivity |]);
    apply negb_false_iff; assumption.
Qed.

(** X7.  A given [limit] whose number is [NaN] or negative makes
    [parseAstraOptions] throw ['Limit must be a non-negative number'];
    when the [limit] is absent or passes, a given [skip] whose number is
    [NaN] or negative makes it throw ['Skip must be a non-negative
    number'].  Nothing is clamped. *)
Theorem parseAstraOptions_rejects_bad_numbers : forall node options,
    is_nullish options = false ->
    (rejected_number (property options "limit") ->
     parseAstraOptions node options
     = throw (NodeOperationError node "Limit must be a non-negative number"))
    /\ (accepted_number (property options "limit") ->
        rejected_number (property options "skip") ->
        parseAstraOptions node options
        = throw (NodeOperationError node "Skip must be a non-negative number")).
Proof.
  intros node options Hdefined.
  rewrite (parseAstraOptions_steps node options Hdefined).
  unfold rbind, ok, throw, rejected_number, accepted_number. cbv zeta.
  split.
  - intros (Hgiven & n & Hnumber & Hbad).
    rewrite Hgiven, Hnumber. simpl. rewrite Hbad. reflexivity.
  - intros [Habsent | (n & Hnumber & Hfine)] (Hgiven & m & Hskip & Hbad).
    + rewrite Habsent, Hgiven, Hskip. simpl. rewrite Hbad. reflexivity.
    + destruct (negb (is_undefined (property options "limit")));
        rewrite ?Hnumber, Hgiven, Hskip; simpl; rewrite ?Hfine, Hbad; reflexivity.
Qed.

(** X8.  In the options that [parseAstraOptions] returns, [upsert] is
    there exactly when the input gave one, as the boolean of its
    truthiness, and [returnDocument] is the input's value whenever that is
    truthy: it is not compared with ['before'] or ['after']. *)
Theorem parseAstraOptions_flags : forall node options result,
    parseAstraOptions node options = ok (VObj result) ->
    lookup "upsert" result
    = (if is_undefined (property options "upsert") then None
       else Some (VBool (ToBoolean (property options "upsert"))))
    /\ lookup "returnDocument" result
       = (if ToBoolean (property options "returnDocument")
          then Some (property options "returnDocument") else None).
Proof.
  intros node options result H.
  pose proof (parseAstraOptions_nullish _ _ _ H) as Hdefined.
  rewrite (parseAstraOptions_steps node options Hdefined) in H.
  unfold rbind, ok, throw in H. cbv zeta in H.
  revert H.
  destruct (is_undefined (property options "upsert"));
    destruct (ToBoolean (property options "returnDocument"));
    simpl; intros H;
    split_conditions H; try discriminate H;
    injection H as <-; split; reflexivity.
Qed.

(** X9.  A [sort] given as JSON text is stored parsed: when
    [parseAstraOptions] returns, the text did parse and the [sort] of the
    result is the parsed value. *)
Theorem parseAstraOptions_sort_text : forall node options result text,
    parseAstraOptions node options = ok (VObj result) ->
    property options "sort" = VStr text ->
    text <> "" ->
    exists sort, JSON_parse text = ok sort /\ lookup "sort" result = Some sort.
Proof.
  intros node options result text H Hsort Htext.
  pose proof (parseAstraOptions_nullish _ _ _ H) as Hdefined.
  rewrite (parseAstraOptions_steps node options Hdefined) in H.
  unfold rbind, ok, throw in H. cbv zeta in H.
  rewrite Hsort in H. simpl in H.
  apply String.eqb_neq in Htext. rewrite Htext in H. simpl in H.
  unfold parse_json_option at 1 in H. simpl in H.
  destruct (JSON_parse text) as [e | sort].
  - split_conditions H; discriminate H.
  - exists sort. split; [reflexivity |].
    unfold ok in H.
    split_conditions H; try discriminate H; injection H as <-; reflexivity.
Qed.

(** X10.  A [sort] given as text that is not JSON makes
    [parseAstraOptions] throw ['Invalid sort format. Must be valid JSON'],
    whatever the engine's own message, once [limit] and [skip] have
    passed. *)
Theorem parseAstraOptions_sort_text_invalid : forall node options text error,
    is_nullish options = false ->
    property options "limit" = VUndefined ->
    property options "skip" = VUndefined ->
    property options "sort" = VStr text ->
    text <> "" ->
    JSON_parse text = inl error ->
    parseAstraOptions node options
    = throw (NodeOperationError node "Invalid sort format. Must be valid JSON").
Proof.
  intros node options text error Hdefined Hlimit Hskip Hsort Htext Hparse.
  rewrite (parseAstraOptions_steps node options Hdefined).
  unfold rbind, ok, throw. cbv zeta.
  rewrite Hlimit, Hskip, Hsort. simpl.
  apply String.eqb_neq in Htext. rewrite Htext. simpl.
  unfold parse_json_option. simpl. rewrite Hparse. reflexivity.
Qed.
End OptionProperties.

Lemma parseAstraOptions_known_names_witness :
  exists result,
    VObj [("limit", VNum 10%float); ("upsert", VBool true)] = VObj result
    /\ forall k x, lookup k result = Some x -> In k option_names.
Proof.
  apply (parseAstraOptions_known_names (P := engine_excerpt) sample_node
           (VObj [("limit", VNum 10%float); ("timeout", VNum 30%float);
                  ("upsert", VNum 1%float)])).
  reflexivity.
Defined.

Lemma parseAstraOptions_numbers_checked_witness :
  (forall x, lookup "limit" [("limit", VNum 10%float); ("skip", VNum 0%float)] = Some x ->
             exists n, x = VNum n /\ non_negative n = true)
  /\ (forall x, lookup "skip" [("limit", VNum 10%float); ("skip", VNum 0%float)] = Some x ->
                exists n, x = VNum n /\ non_negative n = true).
Proof.
  apply (parseAstraOptions_numbers_checked (P := engine_excerpt) sample_node
           (VObj [("limit", VNum 10%float); ("skip", VStr "0")])).
  reflexivity.
Defined.

(** A negative [limit]; and a [limit] that passes with a [skip] that is no
    number. *)
Lemma parseAstraOptions_rejects_bad_numbers_witness :
  parseAstraOptions (P := engine_excerpt) sample_node
    (VObj [("limit", VNum (-1)%float); ("skip", VNum (-5)%float)])
  = throw (NodeOperationError sample_node "Limit must be a non-negative number")
  /\ parseAstraOptions (P := engine_excerpt) sample_node
       (VObj [("limit", VNum 10%float); ("skip", VStr "many")])
     = throw (NodeOperationError sample_node "Skip must be a non-negative number").
Proof.
  split.
  - apply (parseAstraOptions_rejects_bad_numbers (P := engine_excerpt) sample_node
             (VObj [("limit", VNum (-1)%float); ("skip", VNum (-5)%float)])
             eq_refl).
    split; [reflexivity |]. exists (-1)%float. split; reflexivity.
  - apply (parseAstraOptions_rejects_bad_numbers (P := engine_excerpt) sample_node
             (VObj [("limit", VNum 10%float); ("skip", VStr "many")])
             eq_refl).
    + right. exists 10%float. split; reflexivity.
    + split; [reflexivity |]. exists PrimFloat.nan. split; reflexivity.
Defined.

Lemma parseAstraOptions_flags_witness :
  lookup "upsert" [("upsert", VBool true); ("returnDocument", VStr "latest")]
  = Some (VBool true)
  /\ lookup "returnDocument" [("upsert", VBool true); ("returnDocument", VStr "latest")]
     = Some (VStr "latest").
Proof.
  apply (parseAstraOptions_flags (P := engine_excerpt) sample_node
           (VObj [("upsert", VStr "yes"); ("returnDocument", VStr "latest")])).
  reflexivity.
Defined.

Lemma parseAstraOptions_sort_text_witness :
  exists sort,
    JSON_parse (Platform := engine_excerpt) "{}" = ok sort
    /\ lookup "sort" [("sort", VObj [])] = Some sort.
Proof.
  apply (parseAstraOptions_sort_text (P := engine_excerpt) sample_node
           (VObj [("sort", VStr "{}")]) [("sort", VObj [])] "{}").
  - reflexivity.
  - reflexivity.
  - discriminate.
Defined.

Lemma parseAstraOptions_sort_text_invalid_witness :
  parseAstraOptions (P := engine_excerpt) sample_node (VObj [("sort", VStr "name")])
  = throw (NodeOperationError sample_node "Invalid sort format. Must be valid JSON").
Proof.
  apply (parseAstraOptions_sort_text_invalid (P := engine_excerpt) sample_node
           (VObj [("sort", VStr "name")]) "name"
           (SyntaxError "Unexpected token in JSON: name")).
  - reflexivity.
  - reflexivity.
  - reflexivity.
  - reflexivity.
  - discriminate.
  - reflexivity.
Defined.

(** ** The envelope *)

Ltac split_operation operation :=
  repeat match goal with
    | |- context [String.eqb operation ?name] =>
        destruct (String.eqb_spec operation name) as [-> | ?]; [simpl |]
    end.

Lemma formatAstraResponse_copies : forall result operation envelope,
    formatAstraResponse result operation = ok envelope ->
    get_prop envelope "data" = ok result
    /\ forall k, In k (copied_fields operation) ->
                 get_prop envelope k = get_prop result k.
Proof.
  intros result operation envelope.
  unfold formatAstraResponse, copied_fields, copy_field, rbind, ok.
  split_operation operation; simpl;
    destruct result; simpl; intros H; try discriminate H;
    injection H as <-; (split; [reflexivity |]);
    simpl; intros k Hk;
    repeat (destruct Hk as [<- | Hk]; [reflexivity |]);
    destruct Hk.
Qed.

(** X11.  Whenever [formatAstraResponse] returns, the [data] of the
    envelope is the raw result, and each property that the operation copies
    ([insertedId], [acknowledged], [insertedIds], [insertedCount],
    [matchedCount], [modifiedCount], [deletedCount]) reads in the envelope
    as it reads in the result, [undefined] when the result has none. *)
Theorem formatAstraResponse_fields : forall result operation envelope,
    formatAstraResponse result operation = ok envelope ->
    get_prop envelope "data" = ok result
    /\ forall k, In k (copied_fields operation) ->
                 get_prop envelope k = get_prop result k.
Proof. exact formatAstraResponse_copies. Qed.

Lemma formatAstraResponse_fields_witness :
  get_prop (VObj [("operation", VStr "delete"); ("success", VBool true);
                  ("data", VObj [("deletedCount", VNum 3%float)]);
                  ("deletedCount", VNum 3%float); ("acknowledged", VUndefined)])
    "data"
  = ok (VObj [("deletedCount", VNum 3%float)])
  /\ forall k, In k (copied_fields "delete") ->
       get_prop (VObj [("operation", VStr "delete"); ("success", VBool true);
                       ("data", VObj [("deletedCount", VNum 3%float)]);
                       ("deletedCount", VNum 3%float); ("acknowledged", VUndefined)]) k
       = get_prop (VObj [("deletedCount", VNum 3%float)]) k.
Proof.
  apply (formatAstraResponse_fields (VObj [("deletedCount", VNum 3%float)]) "delete").
  reflexivity.
Defined.

(** X12.  Formatting twice, as [execute] does after the functions of
    [GenericFunctions], does not throw and loses nothing: the second
    envelope holds the first one as [data], and the copied properties of
    the second still read as in the raw result. *)
Theorem formatAstraResponse_twice : forall result operation once,
    formatAstraResponse result operation = ok once ->
    exists twice,
      formatAstraResponse once operation = ok twice
      /\ get_prop twice "data" = ok once
      /\ forall k, In k (copied_fields operation) ->
                   get_prop twice k = get_prop result k.
Proof.
  intros result operation once Honce.
  assert (Hobject : is_nullish once = false).
  { revert Honce. unfold formatAstraResponse, rbind, ok.
    destruct (if String.eqb operation "insertOne" then _ else _) as [e | response];
      intros H; [discriminate H |].
    injection H as <-. reflexivity. }
  destruct (formatAstraResponse once operation) as [e | twice] eqn:Htwice.
  - exfalso. revert Htwice.
    unfold formatAstraResponse, copy_field, rbind, ok.
    destruct once; try discriminate Hobject;
      split_operation operation; simpl; intros H; discriminate H.
  - exists twice. split; [reflexivity |].
    destruct (formatAstraResponse_copies _ _ _ Htwice) as [Hdata Hcopied].
    destruct (formatAstraResponse_copies _ _ _ Honce) as [_ Hfirst].
    split; [exact Hdata |].
    intros k Hk. rewrite (Hcopied k Hk). apply Hfirst. exact Hk.
Qed.

Lemma formatAstraResponse_twice_witness :
  exists twice,
    formatAstraResponse
      (VObj [("operation", VStr "insertOne"); ("success", VBool true);
             ("data", VObj [("insertedId", VStr "123")]);
             ("insertedId", VStr "123"); ("acknowledged", VUndefined)])
      "insertOne" = ok twice
    /\ get_prop twice "data"
       = ok (VObj [("operation", VStr "insertOne"); ("success", VBool true);
                   ("data", VObj [("insertedId", VStr "123")]);
                   ("insertedId", VStr "123"); ("acknowledged", VUndefined)])
    /\ forall k, In k (copied_fields "insertOne") ->
                 get_prop twice k = get_prop (VObj [("insertedId", VStr "123")]) k.
Proof.
  apply (formatAstraResponse_twice (VObj [("insertedId", VStr "123")]) "insertOne").
  reflexivity.
Defined.

(** X13.  For an operation tag that is none of the ten, the envelope is
    [{operation, success: true, data}] and nothing else, and formatting
    does not throw even for [null]. *)
Theorem formatAstraResponse_unknown_operation : forall result operation,
    ~ In operation operation_names ->
    formatAstraResponse result operation
    = ok (VObj [("operation", VStr operation); ("success", VBool true);
                ("data", result)]).
Proof.
  intros result operation Hunknown.
  unfold formatAstraResponse.
  split_operation operation;
    try (exfalso; apply Hunknown; unfold operation_names; simpl; tauto).
  reflexivity.
Qed.

Lemma formatAstraResponse_unknown_operation_witness :
  ~ In "vectorSearch" operation_names
  /\ formatAstraResponse VNull "vectorSearch"
     = ok (VObj [("operation", VStr "vectorSearch"); ("success", VBool true);
                 ("data", VNull)]).
Proof.
  assert (H : ~ In "vectorSearch" operation_names).
  { unfold operation_names. simpl. intros Hin.
    repeat (destruct Hin as [Hin | Hin]; [discriminate Hin |]). exact Hin. }
  split.
  - exact H.
  - apply (formatAstraResponse_unknown_operation VNull "vectorSearch"). exact H.
Defined.

(** ** Records *)

(** X14.  [sanitizeInput] always returns an object, never [null], an
    array or a primitive, and sanitizing its result again changes
    nothing. *)
Theorem sanitizeInput_object : forall data,
    (exists fields, sanitizeInput data = VObj fields)
    /\ sanitizeInput (sanitizeInput data) = sanitizeInput data.
Proof.
  intros data. destruct data; split; try reflexivity; eexists; reflexivity.
Qed.

(** X15.  [generatePairedItemData(length, inputIndex)] has [length]
    elements, and its element [i] is [{item: i, input: inputIndex}]. *)
Theorem generatePairedItemData_elements : forall length inputIndex i,
    List.length (generatePairedItemData length inputIndex) = length
    /\ nth_error (generatePairedItemData length inputIndex) i
       = if (i <? length)%nat
         then Some (VObj [("item", VNum (number_of_nat i));
                          ("input", VNum inputIndex)])
         else None.
Proof.
  intros length inputIndex i. unfold generatePairedItemData. split.
  - rewrite length_map, length_seq. reflexivity.
  - rewrite nth_error_map, nth_error_seq.
    destruct (i <? length)%nat; reflexivity.
Qed.

(** ** Calls to the client *)

Section ClientCalls.
Context {P : Platform} {sdk : AstraSdk}.

(** The state after [collection.method(...args)] has been sent and the
    store has become [store']. *)
Lemma call_and_format_requests :
  forall node collection method args operation failure st,
    world (snd (call_and_format node collection method args operation failure st))
    = {| store := snd (invoke collection method args (store (world st)));
         requests := Array_push (requests (world st)) (method, args) |}.
Proof.
  intros node collection method args operation failure st.
  unfold call_and_format, try_catch, bind, call, lift, fail.
  destruct (invoke collection method args (store (world st))) as [[e | result] store'];
    simpl.
  - reflexivity.
  - destruct (formatAstraResponse result operation); reflexivity.
Qed.

(** X17.  When the client returns [null] or [undefined] to
    [insertOneDocument], [insertManyDocuments], [updateDocuments] or
    [deleteDocuments], the function throws its ['Failed to ...'] error,
    although the call was sent and the store changed as the client left
    it: formatting reads a property of the missing result. *)
Theorem call_and_format_missing_result :
  forall node collection method args operation failure st result store',
    invoke collection method args (store (world st)) = (inr result, store') ->
    is_nullish result = true ->
    reads_result_fields operation = true ->
    exists reason,
      call_and_format node collection method args operation failure st
      = (inl (NodeOperationError node (failure ++ ": " ++ reason)),
         {| world := {| store := store';
                        requests := Array_push (requests (world st)) (method, args) |};
            returnData := returnData st |}).
Proof.
  intros node collection method args operation failure st result store'
    Hinvoke Hmissing Hreads.
  unfold call_and_format, try_catch, bind, call, lift, fail.
  rewrite Hinvoke. cbv beta iota.
  assert (Hthrows : exists e, formatAstraResponse result operation = inl e).
  { revert Hreads. unfold formatAstraResponse, reads_result_fields, copy_field, rbind.
    destruct result; try discriminate Hmissing;
      split_operation operation; simpl; intros Hreads;
      try discriminate Hreads; eexists; reflexivity. }
  destruct Hthrows as [e He]. rewrite He.
  exists (message e). reflexivity.
Qed.

(** X18.  What [handleFindOne] returns is the envelope of
    [findOneDocument], also when the client found nothing: its
    [result || {}] never yields [{}]. *)
Theorem handleFindOne_returns_envelope : forall this collectionObj i st st' result,
    handleFindOne this collectionObj i st = (inr result, st') ->
    exists document, result = found document.
Proof.
  intros this collectionObj i st st' result.
  unfold handleFindOne, bind, lift, ret.
  destruct (parse_parameter this "filter" i) as [e | filter];
    [intros H; discriminate H |].
  destruct (parse_options this i) as [e | options];
    [intros H; discriminate H |].
  destruct (require_valid (getNode this) filter "filter") as [e | []];
    [intros H; discriminate H |].
  unfold findOneDocument.
  destruct (call_and_format _ _ _ _ _ _ st) as [[e | formatted] st1] eqn:Hcall;
    [intros H; discriminate H |].
  apply call_and_format_returns in Hcall. destruct Hcall as [document Hformat].
  cbv in Hformat. injection Hformat as <-.
  intros H. injection H as <- _. exists document. reflexivity.
Qed.

(** X19.  An operation value that is none of the ten cases of the
    [switch], and whose text can be taken for the message, makes the item
    fail with a [NodeOperationError] in the state the item started in: no
    parameter is read, no call is sent, no record is pushed. *)
Theorem process_item_unknown_operation :
  forall this collectionObj links operation i st text,
    (forall name, In name operation_names -> is_operation operation name = false) ->
    ToString operation = inr text ->
    exists message,
      process_item this collectionObj links operation i st
      = (inl (NodeOperationError (getNode this) message), st).
Proof.
  intros this collectionObj links operation i st text Hunknown Htext.
  unfold process_item, bind, run_operation.
  repeat (rewrite Hunknown by (unfold operation_names; simpl; tauto)).
  rewrite Htext. eexists. reflexivity.
Qed.
End ClientCalls.

(** ** One call per item *)

Section OneCall.
Context {P : Platform} {sdk : AstraSdk}.

Lemma run_operation_calls : forall this collectionObj operation i st,
    one_call_at_most operation st (run_operation this collectionObj operation i st).
Proof.
  intros this collectionObj operation i st. unfold one_call_at_most.
  destruct operation as [| | b | n | name | l | o | f];
    try (left; unfold run_operation, is_operation; cbv beta iota;
         match goal with
         | |- context [ToString ?v] => destruct (ToString v)
         end;
         (split; [reflexivity | eexists; reflexivity])).
  unfold run_operation, is_operation.
  split_operation name; simpl;
    unfold handleInsertOne, handleInsertMany, handleFindMany, handleFindOne,
      handleUpdateMany, handleDelete, handleFindAndUpdate, handleFindAndReplace,
      handleFindAndDelete, handleEstimatedDocumentCount, bind, lift, ret, fail;
    run_checks;
    try (left; split; [reflexivity | eexists; reflexivity]);
    right; do 4 eexists; (split; [reflexivity |]); (split; [reflexivity |]);
    unfold insertOneDocument, insertManyDocuments, findDocuments, findOneDocument,
      updateDocuments, deleteDocuments, findAndUpdateDocument,
      findAndReplaceDocument, findAndDeleteDocument, estimatedDocumentCount;
    try apply call_and_format_requests;
    match goal with
    | |- context [call_and_format ?nd ?c ?m ?a ?op ?f ?s] =>
        pose proof (call_and_format_requests nd c m a op f s) as Hreq;
        destruct (call_and_format nd c m a op f s) as [[e | formatted] st1];
        exact Hreq
    end.
Qed.

Lemma for_of_push_world : forall A (xs : list A) (f : A -> INodeExecutionData) st,
    world (snd (for_of xs (fun x => push (f x)) st)) = world st.
Proof.
  intros A xs f. induction xs as [| x rest IH]; intros st; simpl.
  - reflexivity.
  - unfold bind. simpl. rewrite IH. reflexivity.
Qed.

Lemma process_item_one_call : forall this collectionObj links operation i st,
    one_call_at_most operation st
      (process_item this collectionObj links operation i st).
Proof.
  intros this collectionObj links operation i st.
  pose proof (run_operation_calls this collectionObj operation i st) as Hrun.
  unfold process_item, bind.
  destruct (run_operation this collectionObj operation i st) as [[e | result] st1].
  - unfold one_call_at_most in *. simpl in *.
    destruct Hrun as [[Hw _] | Hcall].
    + left. split; [exact Hw | exists e; reflexivity].
    + right. exact Hcall.
  - unfold one_call_at_most in *. simpl in Hrun.
    destruct Hrun as [[_ [error Herror]] | (name & method & args & store' & Hop & Hm & Hw)];
      [discriminate Herror |].
    right. exists name, method, args, store'.
    split; [exact Hop |]. split; [exact Hm |].
    rewrite <- Hw.
    destruct (is_operation operation "findMany"); unfold lift, push.
    + destruct (get_prop result "documents") as [e | listed]; [reflexivity |].
      destruct (js_or listed result); try reflexivity.
      apply for_of_push_world.
    + destruct (formatAstraResponse result (str operation)); reflexivity.
Qed.

(** X20.  The processing of one item sends at most one call to the
    client: either it fails with the world untouched, or it has sent
    exactly one call, of the method that belongs to the operation ([find]
    for [findMany], [deleteMany] for [delete], [findOneAndUpdate] for
    [findAndUpdate], ...); an item that is processed without a failure has
    sent exactly one. *)
Theorem process_item_calls : forall this collectionObj links operation i st,
    one_call_at_most operation st
      (process_item this collectionObj links operation i st).
Proof. exact process_item_one_call. Qed.

Lemma iteration_calls : forall this collectionObj links operation i st,
    exists calls,
      requests (world (snd (iteration this collectionObj links operation i st)))
      = (requests (world st) ++ calls)%list
      /\ length calls <= 1.
Proof.
  intros this collectionObj links operation i st.
  pose proof (process_item_one_call this collectionObj links operation i st) as Hitem.
  unfold iteration, try_catch.
  destruct (process_item this collectionObj links operation i st) as [[e | []] st1];
    unfold one_call_at_most in Hitem; simpl in Hitem.
  - assert (Hsame : world (snd ((if continueOnFail this
                                 then push (error_item e (item_link links i))
                                 else fail e) st1)) = world st1)
      by (destruct (continueOnFail this); reflexivity).
    rewrite Hsame.
    destruct Hitem as [[Hw _] | (name & method & args & store' & _ & _ & Hw)];
      rewrite Hw.
    + exists []. rewrite app_nil_r. split; [reflexivity | simpl; lia].
    + exists [(method, args)]. split; [reflexivity | simpl; lia].
  - destruct Hitem as [[_ [error Herror]] | (name & method & args & store' & _ & _ & Hw)];
      [discriminate Herror |].
    simpl. rewrite Hw. exists [(method, args)]. split; [reflexivity | simpl; lia].
Qed.

Lemma for_items_calls : forall this collectionObj links operation remaining i st,
    exists calls,
      requests (world (snd (for_items this collectionObj links operation remaining i st)))
      = (requests (world st) ++ calls)%list
      /\ length calls <= remaining.
Proof.
  intros this collectionObj links operation remaining.
  induction remaining as [| remaining' IH]; intros i st; simpl.
  - exists []. rewrite app_nil_r. split; [reflexivity | simpl; lia].
  - destruct (iteration_calls this collectionObj links operation i st)
      as (first & Hfirst & Hone).
    unfold bind.
    destruct (iteration this collectionObj links operation i st) as [[e | []] st1];
      simpl in Hfirst.
    + exists first. split; [exact Hfirst | lia].
    + destruct (IH (S i) st1) as (others & Hothers & Hbound).
      exists (first ++ others)%list. split.
      * rewrite Hothers, Hfirst, app_assoc. reflexivity.
      * rewrite length_app. lia.
Qed.

(** X21.  Whatever the host, the engine and the client do, and whether
    [execute] returns or throws, it sends at most one call per input item:
    the calls of the run are appended to those sent before, and there are
    no more of them than input items. *)
Theorem execute_calls_bounded : forall this w,
    exists calls,
      requests (snd (execute this w)) = (requests w ++ calls)%list
      /\ length calls <= length (getInputData this).
Proof.
  intros this w.
  assert (Hnone : forall n, exists calls : list (Method * list value),
             requests w = (requests w ++ calls)%list /\ length calls <= n).
  { intros n. exists []. rewrite app_nil_r. split; [reflexivity | simpl; lia]. }
  unfold execute, execute_body, execute_try, bind, try_catch, lift.
  repeat match goal with
    | |- context [match ?c with inl _ => _ | inr _ => _ end] =>
        lazymatch c with
        | for_items _ _ _ _ _ _ _ => fail
        | _ => destruct c as [? | ?]; simpl
        end
    end;
    try (destruct (continueOnFail this); simpl; apply Hnone);
    try apply Hnone.
  all: match goal with
       | |- context [for_items ?t ?c ?l ?op ?n ?i ?s] =>
           destruct (for_items_calls t c l op n i s) as (calls & Hcalls & Hbound);
           destruct (for_items t c l op n i s) as [[e | []] st1];
           simpl in Hcalls;
           try destruct (continueOnFail this); simpl;
           exists calls; split; assumption
       end.
Qed.
End OneCall.

(** ** What [execute] returns *)

Section ExecuteResults.
Context {P : Platform} {sdk : AstraSdk}.

Lemma for_items_records : forall this collectionObj links operation remaining i st st',
    for_items this collectionObj links operation remaining i st = (inr tt, st') ->
    exists records,
      returnData st' = (returnData st ++ records)%list
      /\ length records = remaining
      /\ forall j, j < remaining ->
           exists body,
             nth_error records j
             = Some {| json := body; pairedItem := item_link links (i + j) |}.
Proof.
  intros this collectionObj links operation remaining.
  induction remaining as [| remaining' IH]; intros i st st'; simpl.
  - unfold ret. intros H. injection H as <-. exists [].
    rewrite app_nil_r. repeat split. intros j Hj. lia.
  - unfold bind at 1. unfold iteration, try_catch.
    destruct (process_item this collectionObj links operation i st)
      as [[e | []] st1] eqn:Hitem.
    + pose proof (process_item_failure_pushes_nothing _ _ _ _ _ _ _ _ Hitem) as Hsame.
      destruct (continueOnFail this); [| intros H; discriminate H].
      unfold push at 1. cbv beta iota. intros Hrest.
      destruct (IH _ _ _ Hrest) as (records & Hrecords & Hlength & Hlinks).
      simpl in Hrecords. unfold Array_push in Hrecords.
      rewrite <- app_assoc, Hsame in Hrecords.
      eexists. split; [exact Hrecords |]. split; [simpl; lia |].
      intros [| j] Hj.
      * eexists. rewrite Nat.add_0_r. reflexivity.
      * destruct (Hlinks j ltac:(lia)) as [body Hbody].
        exists body. simpl. rewrite Nat.add_succ_r. exact Hbody.
    + destruct (process_item_pushes_one_record _ _ _ _ _ _ _ Hitem) as [first Hfirst].
      intros Hrest.
      destruct (IH _ _ _ Hrest) as (records & Hrecords & Hlength & Hlinks).
      rewrite Hfirst in Hrecords. unfold Array_push in Hrecords.
      rewrite <- app_assoc in Hrecords.
      eexists. split; [exact Hrecords |]. split; [simpl; lia |].
      intros [| j] Hj.
      * eexists. rewrite Nat.add_0_r. reflexivity.
      * destruct (Hlinks j ltac:(lia)) as [body Hbody].
        exists body. simpl. rewrite Nat.add_succ_r. exact Hbody.
Qed.

(** X22.  Once the statements before the loop have returned, whenever
    [execute] returns it returns exactly one record per input item, for
    every operation ([findMany] too) and whether items failed or not, and
    the record at position [i] is linked to item [i]. *)
Theorem execute_one_record_per_item :
  forall this collectionObj operation w records w',
    prepared this collectionObj operation ->
    execute this w = (ok [records], w') ->
    length records = length (getInputData this)
    /\ forall i, i < length (getInputData this) ->
         exists body,
           nth_error records i = Some {| json := body; pairedItem := link i |}.
Proof.
  intros this collectionObj operation w records w' Hprepared.
  rewrite (execute_prepared this collectionObj operation w Hprepared).
  destruct (for_items this collectionObj _ operation _ 0 _) as [[e | []] st] eqn:Hloop.
  - pose proof (for_items_continue_returns this collectionObj
                  (generatePairedItemData (length (getInputData this)) PrimFloat.zero)
                  operation (length (getInputData this)) 0
                  {| world := w; returnData := [] |}) as Hreturns.
    rewrite Hloop in Hreturns. simpl in Hreturns.
    destruct (continueOnFail this); [| intros H; discriminate H].
    specialize (Hreturns eq_refl). discriminate Hreturns.
  - unfold ok. intros H. injection H as <- _.
    destruct (for_items_records _ _ _ _ _ _ _ _ Hloop)
      as (found_records & Hrecords & Hlength & Hlinks).
    simpl in Hrecords. rewrite Hrecords. split; [exact Hlength |].
    intros i Hi. destruct (Hlinks i Hi) as [body Hbody].
    exists body. rewrite Hbody. simpl.
    rewrite (item_link_generated _ PrimFloat.zero i Hi). reflexivity.
Qed.

(** X23.  With continue-on-fail on, [execute] does not throw once the
    credentials are valid and the client is built: every later failure,
    before the loop or in it, ends up as a record. *)
Theorem execute_continue_returns :
  forall this w credentials validatedCredentials client,
    continueOnFail this = true ->
    getCredentials this "astraDbApi" = ok credentials ->
    validateAstraCredentialsRaw credentials = ok validatedCredentials ->
    connectAstraClient validatedCredentials = ok client ->
    exists records w', execute this w = (ok [records], w').
Proof.
  intros this w credentials validatedCredentials client Hcontinue Hcred Hvalid Hclient.
  unfold ok in *.
  unfold execute, execute_body, bind, try_catch, lift.
  rewrite Hcred; cbv beta iota. rewrite Hvalid; cbv beta iota.
  rewrite Hclient; cbv beta iota. rewrite Hcontinue.
  destruct (execute_try this client validatedCredentials _) as [[e | []] st].
  - eexists. eexists. reflexivity.
  - eexists. eexists. reflexivity.
Qed.

(** X24.  When the keyspace name is rejected, [execute] sends nothing to
    the client: with continue-on-fail on it returns the single record
    [{error: message}] linked to [[{item: 0}]], with it off it throws the
    validation error. *)
Theorem execute_invalid_keyspace :
  forall this w credentials validatedCredentials client
         operation collection keyspace error,
    getCredentials this "astraDbApi" = ok credentials ->
    validateAstraCredentialsRaw credentials = ok validatedCredentials ->
    connectAstraClient validatedCredentials = ok client ->
    getNodeParameter this "operation" 0 None = ok operation ->
    getNodeParameter this "collection" 0 None = ok collection ->
    getNodeParameter this "keyspace" 0 None = ok keyspace ->
    validateKeyspaceCollectionName (getNode this) keyspace "keyspace" = inl error ->
    execute this w
    = if continueOnFail this
      then (ok [[ {| json := VObj [("error", VStr (message error))];
                     pairedItem := VArr [VObj [("item", VNum PrimFloat.zero)]] |} ]],
            w)
      else (inl error, w).
Proof.
  intros this w credentials validatedCredentials client operation collection
    keyspace error Hcred Hvalid Hclient Hop Hcoll Hks Hname.
  unfold ok in *.
  unfold execute, execute_body, execute_try, bind, try_catch, lift.
  rewrite Hcred; cbv beta iota. rewrite Hvalid; cbv beta iota.
  rewrite Hclient; cbv beta iota. rewrite Hop; cbv beta iota.
  rewrite Hcoll; cbv beta iota. rewrite Hks; cbv beta iota.
  rewrite Hname; cbv beta iota.
  destruct (continueOnFail this); reflexivity.
Qed.

(** X25.  A failure to get, validate or connect with the credentials is
    thrown by [execute] whatever continue-on-fail says: these statements
    stand before the [try]. *)
Theorem execute_credentials_failure : forall this w error,
    (credentials <- getCredentials this "astraDbApi" ;;
     validatedCredentials <- validateAstraCredentialsRaw credentials ;;
     connectAstraClient validatedCredentials)%comp = inl error ->
    execute this w = (inl error, w).
Proof.
  intros this w error. unfold rbind.
  unfold execute, execute_body, bind, try_catch, lift.
  destruct (getCredentials this "astraDbApi") as [e | credentials]; cbv beta iota.
  - intros H. injection H as <-. reflexivity.
  - destruct (validateAstraCredentialsRaw credentials) as [e | validated];
      cbv beta iota.
    + intros H. injection H as <-. reflexivity.
    + destruct (connectAstraClient validated) as [e | client]; cbv beta iota.
      * intros H. injection H as <-. reflexivity.
      * intros H. discriminate H.
Qed.
End ExecuteResults.

(** ** The credential test *)

Section CredentialTestProperties.
Context {sdk : AstraSdk}.

(** X26.  For credentials whose [endpoint] or [token] is missing, empty
    or not a string, the credential test reports ['Error'] with the
    message that names the field, before any client is built. *)
Theorem astraDbCredentialTest_missing_field : forall fields,
    nonempty_string (field fields "endpoint") = None
    \/ nonempty_string (field fields "token") = None ->
    status (astraDbCredentialTest (VObj fields)) = "Error"
    /\ (test_message (astraDbCredentialTest (VObj fields))
        = "Astra DB endpoint is required"
        \/ test_message (astraDbCredentialTest (VObj fields))
           = "Astra DB token is required").
Proof.
  intros fields Hmissing. unfold astraDbCredentialTest, rbind.
  rewrite validateAstraCredentialsRaw_cases.
  destruct (nonempty_string (field fields "endpoint")) as [e |].
  - destruct Hmissing as [Hmissing | Hmissing]; [discriminate Hmissing |].
    rewrite Hmissing. simpl. split; [reflexivity | right; reflexivity].
  - simpl. split; [reflexivity | left; reflexivity].
Qed.

(** X27.  The credential test reports ['OK'] only for a credentials
    object whose [endpoint] and [token] are both non-empty strings. *)
Theorem astraDbCredentialTest_ok_means_valid : forall credentials,
    status (astraDbCredentialTest credentials) = "OK" ->
    exists fields e t,
      credentials = VObj fields
      /\ nonempty_string (field fields "endpoint") = Some e
      /\ nonempty_string (field fields "token") = Some t.
Proof.
  intros credentials. unfold astraDbCredentialTest, rbind.
  destruct credentials as [| | b | n | s | l | fields | f];
    try (simpl; intros H; discriminate H).
  rewrite validateAstraCredentialsRaw_cases.
  destruct (nonempty_string (field fields "endpoint")) as [e |] eqn:He;
    [| simpl; intros H; discriminate H].
  destruct (nonempty_string (field fields "token")) as [t |] eqn:Ht;
    [| simpl; intros H; discriminate H].
  intros _. exists fields, e, t.
  split; [reflexivity | split; [exact He | exact Ht]].
Qed.
End CredentialTestProperties.

Lemma astraDbCredentialTest_missing_field_witness :
  status (astraDbCredentialTest (sdk := memory_sdk)
            (VObj [("endpoint", VStr "https://db.example.com"); ("token", VStr "")]))
  = "Error"
  /\ (test_message (astraDbCredentialTest (sdk := memory_sdk)
                      (VObj [("endpoint", VStr "https://db.example.com");
                             ("token", VStr "")]))
      = "Astra DB endpoint is required"
      \/ test_message (astraDbCredentialTest (sdk := memory_sdk)
                         (VObj [("endpoint", VStr "https://db.example.com");
                                ("token", VStr "")]))
         = "Astra DB token is required").
Proof.
  apply (astraDbCredentialTest_missing_field (sdk := memory_sdk)
           [("endpoint", VStr "https://db.example.com"); ("token", VStr "")]).
  right. reflexivity.
Defined.

Lemma astraDbCredentialTest_ok_means_valid_witness :
  exists fields e t,
    VObj [("endpoint", VStr "https://db.example.com"); ("token", VStr "AstraCS:token")]
    = VObj fields
    /\ nonempty_string (field fields "endpoint") = Some e
    /\ nonempty_string (field fields "token") = Some t.
Proof.
  apply (astraDbCredentialTest_ok_means_valid (sdk := memory_sdk)
           (VObj [("endpoint", VStr "https://db.example.com");
                  ("token", VStr "AstraCS:token")])).
  reflexivity.
Defined.

(** ** Examples for the properties of the dispatcher *)

Lemma call_and_format_missing_result_witness :
  exists reason,
    call_and_format (sdk := mock_sdk) sample_node (VStr "users")
      collection_deleteMany [VObj []] "delete" "Failed to delete documents"
      {| world := @mkWorld mock_sdk [ada] []; returnData := [] |}
    = (inl (NodeOperationError sample_node ("Failed to delete documents: " ++ reason)),
       {| world := @mkWorld mock_sdk [ada] [(collection_deleteMany, [VObj []])];
          returnData := [] |}).
Proof.
  apply (call_and_format_missing_result (sdk := mock_sdk) sample_node (VStr "users")
           collection_deleteMany [VObj []] "delete" "Failed to delete documents"
           {| world := @mkWorld mock_sdk [ada] []; returnData := [] |}
           VUndefined [ada]).
  - reflexivity.
  - reflexivity.
  - reflexivity.
Defined.

Lemma handleFindOne_returns_envelope_witness :
  exists document, found VNull = found document.
Proof.
  apply (handleFindOne_returns_envelope (P := engine_excerpt) (sdk := memory_sdk)
           (sample_host "findOne" ["{}"] false) (VStr "users") 0
           {| world := memory_world []; returnData := [] |}
           {| world := @mkWorld memory_sdk []
                         [(collection_findOne, [VObj []; VObj []])];
              returnData := [] |}
           (found VNull)).
  vm_compute. reflexivity.
Defined.

Lemma process_item_unknown_operation_witness :
  exists message,
    process_item (P := engine_excerpt) (sdk := memory_sdk)
      (sample_host "vectorSearch" ["{}"] false) (VStr "users")
      (generatePairedItemData 1 PrimFloat.zero) (VStr "vectorSearch") 0
      {| world := memory_world [ada]; returnData := [] |}
    = (inl (NodeOperationError sample_node message),
       {| world := memory_world [ada]; returnData := [] |}).
Proof.
  apply (process_item_unknown_operation (P := engine_excerpt) (sdk := memory_sdk)
           (sample_host "vectorSearch" ["{}"] false) (VStr "users")
           (generatePairedItemData 1 PrimFloat.zero) (VStr "vectorSearch") 0
           {| world := memory_world [ada]; returnData := [] |} "vectorSearch").
  - intros name Hin. unfold operation_names in Hin. simpl in Hin.
    repeat (destruct Hin as [<- | Hin]; [reflexivity |]). destruct Hin.
  - reflexivity.
Defined.

(** Two [findMany] items on a store of two documents; the filter of item 1
    is an array.  Two records come back, one per item. *)
Lemma execute_one_record_per_item_witness :
  length [ {| json := VObj [("operation", VStr "findMany"); ("success", VBool true);
                            ("data", VArr [ada; bob])];
              pairedItem := link 0 |};
           error_item filter_is_array (link 1) ] = 2
  /\ forall i, i < 2 ->
       exists body,
         nth_error
           [ {| json := VObj [("operation", VStr "findMany"); ("success", VBool true);
                              ("data", VArr [ada; bob])];
                pairedItem := link 0 |};
             error_item filter_is_array (link 1) ] i
         = Some {| json := body; pairedItem := link i |}.
Proof.
  apply (execute_one_record_per_item (P := engine_excerpt) (sdk := memory_sdk)
           (sample_host "findMany" ["{}"; "[]"] true) (VStr "users") (VStr "findMany")
           (memory_world [ada; bob]) _
           (@mkWorld memory_sdk [ada; bob] [(collection_find, [VObj []; VObj []])])).
  - apply sample_host_prepared.
  - vm_compute. reflexivity.
Defined.

Lemma execute_continue_returns_witness :
  exists records w',
    execute (P := engine_excerpt) (sdk := memory_sdk)
      (with_keyspace (VStr "my-keyspace") (sample_host "findOne" ["{}"] true))
      (memory_world [ada])
    = (ok [records], w').
Proof.
  apply (execute_continue_returns (P := engine_excerpt) (sdk := memory_sdk)
           (with_keyspace (VStr "my-keyspace") (sample_host "findOne" ["{}"] true))
           (memory_world [ada])
           (VObj [("endpoint", VStr "https://db.example.com");
                  ("token", VStr "AstraCS:token")])
           {| endpoint := "https://db.example.com"; token := "AstraCS:token" |}
           "AstraCS:token");
    reflexivity.
Defined.

Lemma execute_invalid_keyspace_witness :
  execute (P := engine_excerpt) (sdk := memory_sdk)
    (with_keyspace (VStr "my-keyspace") (sample_host "findOne" ["{}"; "{}"] true))
    (memory_world [ada])
  = (ok [[ {| json :=
                VObj [("error",
                       VStr "Invalid keyspace name. Must start with a letter and contain only letters, numbers, and underscores")];
              pairedItem := VArr [VObj [("item", VNum 0%float)]] |} ]],
     memory_world [ada]).
Proof.
  apply (execute_invalid_keyspace (P := engine_excerpt) (sdk := memory_sdk)
           (with_keyspace (VStr "my-keyspace") (sample_host "findOne" ["{}"; "{}"] true))
           (memory_world [ada])
           (VObj [("endpoint", VStr "https://db.example.com");
                  ("token", VStr "AstraCS:token")])
           {| endpoint := "https://db.example.com"; token := "AstraCS:token" |}
           "AstraCS:token" (VStr "findOne") (VStr "users") (VStr "my-keyspace")
           (NodeOperationError sample_node
              "Invalid keyspace name. Must start with a letter and contain only letters, numbers, and underscores"));
    reflexivity.
Defined.

Lemma execute_credentials_failure_witness :
  execute (P := engine_excerpt) (sdk := memory_sdk)
    (with_credentials (VObj [("endpoint", VStr "https://db.example.com")])
       (sample_host "findOne" ["{}"] true))
    (memory_world [ada])
  = (inl (Error "Astra DB token is required"), memory_world [ada]).
Proof.
  apply (execute_credentials_failure (P := engine_excerpt) (sdk := memory_sdk)
           (with_credentials (VObj [("endpoint", VStr "https://db.example.com")])
              (sample_host "findOne" ["{}"] true))
           (memory_world [ada]) (Error "Astra DB token is required")).
  reflexivity.
Defined.

(** ** From parameters to the call *)

Section Translation.
Context {P : Platform} {sdk : AstraSdk}.

Lemma parseAstraOptions_object : forall node options parsed,
    parseAstraOptions node options = ok parsed -> or_empty parsed = parsed.
Proof.
  intros node options parsed H.
  pose proof (parseAstraOptions_nullish _ _ _ H) as Hdefined.
  rewrite (parseAstraOptions_steps node options Hdefined) in H.
  unfold rbind, ok, throw in H. cbv zeta in H.
  split_conditions H; try discriminate H; injection H as <-; reflexivity.
Qed.

Lemma parse_options_object : forall this i parsed,
    parse_options this i = ok parsed -> or_empty parsed = parsed.
Proof.
  intros this i parsed. unfold parse_options, rbind.
  destruct (getNodeParameter this "options" i (Some (VObj []))) as [e | raw];
    [intros H; discriminate H |].
  apply parseAstraOptions_object.
Qed.

Ltac pass_checks Hparse Hoptions Hvalid :=
  repeat match goal with
    | |- context [parse_parameter ?t ?n ?i] =>
        rewrite (Hparse n) by (simpl; tauto); cbv beta iota
    | |- context [parse_options ?t ?i] =>
        rewrite (Hoptions eq_refl); cbv beta iota
    | |- context [require_valid ?nd ?q ?n] =>
        rewrite (require_valid_valid nd q n) by (apply Hvalid; simpl; tauto);
        cbv beta iota
    end.

(** X28.  When the parameters of an item parse, its options are accepted
    and its queries are valid, the handler of each of the ten operations
    sends exactly one call: the method of the operation, with the parsed
    parameters in the order of the method's signature, followed by the
    parsed options for the handlers that read options; [delete] and
    [insertOne] pass no options. *)
Theorem run_operation_call : forall this collectionObj operation method i st
                                    parameter options,
    client_method operation = Some method ->
    (forall name, In name (parsed_parameters operation) ->
                  parse_parameter this name i = inr (parameter name)) ->
    (parses_options operation = true -> parse_options this i = inr options) ->
    (forall name, In name (validated_parameters operation) ->
                  isValid (validateQuery (getNode this) (parameter name) name) = true) ->
    world (snd (run_operation this collectionObj (VStr operation) i st))
    = {| store :=
           snd (invoke collectionObj method
                  (call_arguments operation parameter options) (store (world st)));
         requests :=
           Array_push (requests (world st))
             (method, call_arguments operation parameter options) |}.
Proof.
  intros this collectionObj operation method i st parameter options.
  unfold client_method, parsed_parameters, parses_options, validated_parameters,
    call_arguments, run_operation, is_operation.
  split_operation operation; simpl;
    intros Hmethod Hparse Hoptions Hvalid;
    try discriminate Hmethod; injection Hmethod as <-;
    try (pose proof (parse_options_object this i options (Hoptions eq_refl))
          as Hobject);
    unfold handleInsertOne, handleInsertMany, handleFindMany, handleFindOne,
      handleUpdateMany, handleDelete, handleFindAndUpdate, handleFindAndReplace,
      handleFindAndDelete, handleEstimatedDocumentCount, bind, lift, ret, ok;
    pass_checks Hparse Hoptions Hvalid;
    unfold insertOneDocument, insertManyDocuments, findDocuments, findOneDocument,
      updateDocuments, deleteDocuments, findAndUpdateDocument,
      findAndReplaceDocument, findAndDeleteDocument, estimatedDocumentCount;
    try rewrite Hobject;
    try apply call_and_format_requests.
  match goal with
  | |- context [call_and_format ?nd ?c ?m ?a ?op ?f ?s] =>
      pose proof (call_and_format_requests nd c m a op f s) as Hreq;
      destruct (call_and_format nd c m a op f s) as [[e | formatted] st1];
      exact Hreq
  end.
Qed.

(** X29.  With no input item, a prepared [execute] returns one empty
    list of records and leaves the world as it was. *)
Theorem execute_no_items : forall this collectionObj operation w,
    prepared this collectionObj operation ->
    getInputData this = [] ->
    execute this w = (ok [[]], w).
Proof.
  intros this collectionObj operation w Hprepared Hempty.
  rewrite (execute_prepared this collectionObj operation w Hprepared).
  rewrite Hempty. reflexivity.
Qed.
End Translation.

Lemma run_operation_call_witness :
  world (snd (run_operation (P := engine_excerpt) (sdk := memory_sdk)
                (sample_host "findMany" ["{}"] false) (VStr "users")
                (VStr "findMany") 0
                {| world := memory_world [ada]; returnData := [] |}))
  = @mkWorld memory_sdk [ada] [(collection_find, [VObj []; VObj []])].
Proof.
  apply (run_operation_call (P := engine_excerpt) (sdk := memory_sdk)
           (sample_host "findMany" ["{}"] false) (VStr "users") "findMany"
           collection_find 0 {| world := memory_world [ada]; returnData := [] |}
           (fun _ => VObj []) (VObj [])).
  - reflexivity.
  - intros name [<- | []]. reflexivity.
  - intros _. reflexivity.
  - intros name [<- | []]. reflexivity.
Defined.

Lemma execute_no_items_witness :
  execute (P := engine_excerpt) (sdk := memory_sdk)
    (sample_host "insertOne" [] false) (memory_world [ada])
  = (ok [[]], memory_world [ada]).
Proof.
  apply (execute_no_items (P := engine_excerpt) (sdk := memory_sdk)
           (sample_host "insertOne" [] false) (VStr "users") (VStr "insertOne")).
  - apply sample_host_prepared.
  - reflexivity.
Defined.
